(** * seekr: the crawl engine of [src/crawler.ts]

    A shallow embedding of the [Crawler] class and of [performCrawl], the
    per-page pipeline: claim the url, load the page, tokenise and match the
    content against the dictionary, classify the outbound links, expand the
    queue, report.

    Conventions of the embedding.
    - A JavaScript string is a [string]: a sequence of code units below 256
      (the Latin-1 range), on which [toLowerCase], [length] and [split] are
      character-wise.
    - [Set<string>] fields that are only read with [has] and grown with [add]
      ([dictionary], [crawledUrls], [interestingDomains]) are [gset string];
      sets that are iterated ([found], the set behind [hrefs]) keep their
      insertion order and live in [JsSet].
    - JavaScript numbers that hold counts and lengths are [Z].
    - One call of [performCrawl] is a function from the crawler's fields and
      the behaviour of the page it opens to the new fields, the trace of calls
      it makes on [output], [callback] and the page, its [result], and the
      exception its promise is [rejected] with when one leaves the function. *)

From Stdlib Require Import ZArith Ascii String List Bool Lia.
From Stdlib Require Import Decimal DecimalString DecimalNat.
From stdpp Require Import base decidable gmap strings list.
Import ListNotations.

Local Open Scope string_scope.
Local Open Scope Z_scope.

(** ** JavaScript values and strings *)

Module Js.

(** What a callback hands back to [Array.prototype.filter]: an arrow
    function with a block body and no [return] yields [undefined]. *)
Inductive value : Type :=
| Undefined
| Boolean (b : bool).

Definition ToBoolean (v : value) : bool :=
  match v with
  | Undefined => false
  | Boolean b => b
  end.

(** [arr.filter(f)] keeps the elements on which [f] is truthy. *)
Definition filter {A : Type} (f : A -> value) (arr : list A) : list A :=
  List.filter (fun x => ToBoolean (f x)) arr.

(** [ch.toLowerCase()] on one code unit below 256: A-Z and the accented
    capitals U+00C0..U+00DE (but not the multiplication sign U+00D7) move
    up by 32, everything else is kept. *)
Definition is_upper (ch : ascii) : bool :=
  let n := N_of_ascii ch in
  ((65 <=? n) && (n <=? 90) ||
   (192 <=? n) && (n <=? 222) && negb (n =? 215))%N.

Definition lower_char (ch : ascii) : ascii :=
  if is_upper ch then ascii_of_N (N_of_ascii ch + 32) else ch.

Fixpoint toLowerCase (s : string) : string :=
  match s with
  | EmptyString => EmptyString
  | String ch rest => String (lower_char ch) (toLowerCase rest)
  end.

(** [s.length] *)
Definition length (s : string) : Z := Z.of_nat (String.length s).

(** [s.split(sep)] for a one-character separator: the pieces between
    consecutive separators, empty pieces included; never the empty array. *)
Fixpoint split (sep : ascii) (s : string) : list string :=
  match s with
  | EmptyString => [EmptyString]
  | String ch rest =>
      if Ascii.eqb ch sep then EmptyString :: split sep rest
      else match split sep rest with
           | [] => [String ch EmptyString]
           | piece :: pieces => String ch piece :: pieces
           end
  end.

(** [a % b === 0] on integers; [a % 0] is [NaN], which is not [0]. *)
Definition rem_is_zero (a b : Z) : bool :=
  negb (b =? 0) && (Z.rem a b =? 0).

End Js.

(** ** Insertion-ordered sets *)

Module JsSet.

(** A [Set<string>] as the list of its elements in insertion order. *)
Definition t : Type := list string.

Definition empty : t := [].

Definition has (s : t) (x : string) : bool := bool_decide (x ∈ s).

(** [s.add(x)]: appended when absent, otherwise nothing changes. *)
Definition add (s : t) (x : string) : t :=
  if has s x then s else (s ++ [x])%list.

(** [new Set(iterable)] *)
Definition of_list (l : list string) : t := fold_left add l empty.

(** [Array.from(s)] *)
Definition to_array (s : t) : list string := s.

(** [s.size] *)
Definition size (s : t) : Z := Z.of_nat (List.length s).

End JsSet.

(** ** The dictionary matcher (lines 192-195 and 222-226 of [performCrawl]) *)

(** [content.split(' ').map(toLowerCase).filter(length > minimumWordLength)] *)
Definition page_words (minimumWordLength : Z) (content : string) : list string :=
  List.filter (fun word => minimumWordLength <? Js.length word)
    (List.map Js.toLowerCase (Js.split " "%char content)).

(** [words.forEach(word => { if (dictionary.has(word)) found.add(word) })],
    starting from the empty [found]. *)
Definition collect_found (dictionary : gset string) (words : list string) : JsSet.t :=
  fold_left
    (fun found word =>
       if bool_decide (word ∈ dictionary) then JsSet.add found word else found)
    words JsSet.empty.

Definition page_matches (dictionary : gset string) (minimumWordLength : Z)
    (content : string) : list string :=
  JsSet.to_array (collect_found dictionary (page_words minimumWordLength content)).

Definition dog_cat : gset string := {[ "dog"; "cat" ]}.

(** ** The crawler's fields and what a task reports *)

(** The fields of [Crawler] that [performCrawl], [enqueueCrawl] and the drain
    callback read or write. [urlQueue] is [None] until [init] has created the
    queue, then the list of the tasks pushed so far. *)
Record Crawler : Type := mkCrawler {
  dictionary : gset string;
  counter : Z;
  simultaneousRequests : Z;
  requestTimeout : Z;
  debug : bool;
  urlQueue : option (list string);
  finished : bool;
  crawledUrls : gset string;
  interestingDomains : gset string;
  minimumWordLength : Z;
  numberAdded : Z;
  itemsToProcessBeforeLogging : Z;
  takeScreenshots : bool;
  screenshotPath : string
}.

Definition DefaultSimultaneousRequests : Z := 20.
Definition DefaultRequestTimeout : Z := 10000.
Definition DefaultMinimumWordLength : Z := 3.
Definition DefaultItemsToProcessBeforeLogging : Z := 100.
Definition DefaultTakeScreenshots : bool := false.
Definition DefaultScreenshotPath : string := "./screenshots".

(** The constructor, every parameter explicit. *)
Definition new_Crawler (dict : list string) (dbg shots : bool) (simultaneous timeout : Z)
    (domains crawled : list string) (minLength logEvery : Z) (path : string) : Crawler :=
  {| dictionary := list_to_set dict;
     counter := 0;
     simultaneousRequests := simultaneous;
     requestTimeout := timeout;
     debug := dbg;
     urlQueue := None;
     finished := false;
     crawledUrls := list_to_set crawled;
     interestingDomains := list_to_set domains;
     minimumWordLength := minLength;
     numberAdded := 0;
     itemsToProcessBeforeLogging := logEvery;
     takeScreenshots := shots;
     screenshotPath := path |}.

(** [new Crawler(dictionary)] and the other parameters at their defaults,
    except those listed. *)
Definition default_Crawler (dict domains : list string) : Crawler :=
  new_Crawler dict false DefaultTakeScreenshots DefaultSimultaneousRequests
    DefaultRequestTimeout domains [] DefaultMinimumWordLength
    DefaultItemsToProcessBeforeLogging DefaultScreenshotPath.

Definition set_claimed (this : Crawler) (url : string) : Crawler :=
  {| dictionary := dictionary this;
     counter := counter this + 1;
     simultaneousRequests := simultaneousRequests this;
     requestTimeout := requestTimeout this;
     debug := debug this;
     urlQueue := urlQueue this;
     finished := finished this;
     crawledUrls := {[ url ]} ∪ crawledUrls this;
     interestingDomains := interestingDomains this;
     minimumWordLength := minimumWordLength this;
     numberAdded := numberAdded this;
     itemsToProcessBeforeLogging := itemsToProcessBeforeLogging this;
     takeScreenshots := takeScreenshots this;
     screenshotPath := screenshotPath this |}.

Definition set_pushed (this : Crawler) (queue : list string) (url : string) : Crawler :=
  {| dictionary := dictionary this;
     counter := counter this;
     simultaneousRequests := simultaneousRequests this;
     requestTimeout := requestTimeout this;
     debug := debug this;
     urlQueue := Some (queue ++ [url])%list;
     finished := finished this;
     crawledUrls := crawledUrls this;
     interestingDomains := interestingDomains this;
     minimumWordLength := minimumWordLength this;
     numberAdded := numberAdded this + 1;
     itemsToProcessBeforeLogging := itemsToProcessBeforeLogging this;
     takeScreenshots := takeScreenshots this;
     screenshotPath := screenshotPath this |}.

Definition set_urlQueue (this : Crawler) (queue : option (list string)) : Crawler :=
  {| dictionary := dictionary this;
     counter := counter this;
     simultaneousRequests := simultaneousRequests this;
     requestTimeout := requestTimeout this;
     debug := debug this;
     urlQueue := queue;
     finished := finished this;
     crawledUrls := crawledUrls this;
     interestingDomains := interestingDomains this;
     minimumWordLength := minimumWordLength this;
     numberAdded := numberAdded this;
     itemsToProcessBeforeLogging := itemsToProcessBeforeLogging this;
     takeScreenshots := takeScreenshots this;
     screenshotPath := screenshotPath this |}.

Definition set_finished (this : Crawler) (flag : bool) : Crawler :=
  {| dictionary := dictionary this;
     counter := counter this;
     simultaneousRequests := simultaneousRequests this;
     requestTimeout := requestTimeout this;
     debug := debug this;
     urlQueue := urlQueue this;
     finished := flag;
     crawledUrls := crawledUrls this;
     interestingDomains := interestingDomains this;
     minimumWordLength := minimumWordLength this;
     numberAdded := numberAdded this;
     itemsToProcessBeforeLogging := itemsToProcessBeforeLogging this;
     takeScreenshots := takeScreenshots this;
     screenshotPath := screenshotPath this |}.

(** What is thrown in [performCrawl], inside its [try] block or outside. *)
Inductive Exception : Type :=
| PageError (detail : string)        (* page.goto, page.content or page.$$eval *)
| ScreenshotError (detail : string)  (* page.screenshot, or building its path  *)
| TypeError (detail : string)        (* a property read on undefined           *)
| BrowserError (detail : string).    (* puppeteer.launch, newPage or page.close *)

(** The four objects a task can end with:
    [{found: true, url, matches, links}], [{found: false, url, words: ''}],
    [{found: false, url, status: 'already crawled'}] and
    [{found: false, url, error}]. *)
Inductive CrawlResult : Type :=
| Found (url : string) (matches links : list string)
| NotFound (url : string)
| AlreadyCrawled (url : string)
| Failed (url : string) (error : Exception).

(** The arguments [this.output] is called with. The progress line also prints
    the elapsed time and the queue length, which the environment supplies. *)
Inductive OutputArg : Type :=
| OutResult (r : CrawlResult)
| OutProgress (processed added : Z)
| OutError (url : string) (error : Exception)
| OutInitializing
| OutQueueDrained
| OutClosing.

(** The calls a task makes on its collaborators, in order. *)
Inductive Event : Type :=
| Output (arg : OutputArg)
| Callback (r : CrawlResult)
| TakeScreenshot (url : string)
| ClosePage.

(** How the page opened for a task behaves: loading it either throws or
    yields the content and the [href] of every anchor; [screenshot] is
    [Some detail] when taking the screenshot throws. [open_error] is
    [Some detail] when the browser cannot be launched or cannot open the page
    (lines 175-182), [close_error] when [page.close()] throws (line 255). *)
Inductive PageLoad : Type :=
| LoadFails (detail : string)
| Loaded (content : string) (hrefsFromPage : list string).

Record Page : Type := mkPage {
  open_error : option string;
  load : PageLoad;
  screenshot : option string;
  close_error : option string
}.

(** [new CrawlableLink(link)], as far as [performCrawl] reads it. The class
    lives in [./crawlableLink], outside the source at hand; the pipeline is
    parametric in it. *)
Record CrawlableLink : Type := mkCrawlableLink {
  isCrawlable : bool;
  crawlableUrl : string;
  hostname : string
}.

(** How a call of [performCrawl] ends: the crawler's fields, the calls made,
    the value of [result] if one was assigned (or handed to the callback on the
    early return), and the exception the returned promise is rejected with, if
    one left the function. *)
Record Outcome : Type := mkOutcome {
  crawler : Crawler;
  trace : list Event;
  result : option CrawlResult;
  rejected : option Exception
}.

(** [enqueueCrawl] as a function of its receiver: [this.urlQueue.push(url)]
    then [this.numberAdded++]. Without a receiver, or before [init] has set
    [urlQueue], the first statement throws. *)
Definition enqueueCrawl_method (this : option Crawler) (url : string)
    : Exception + Crawler :=
  match this with
  | None => inl (TypeError "Cannot read properties of undefined (reading 'urlQueue')")
  | Some self =>
      match urlQueue self with
      | None => inl (TypeError "Cannot read properties of undefined (reading 'push')")
      | Some queue => inr (set_pushed self queue url)
      end
  end.

(** [crawler.enqueueCrawl(url)] *)
Definition enqueueCrawl (this : Crawler) (url : string) : Exception + Crawler :=
  enqueueCrawl_method (Some this) url.

(** [arr.forEach(this.enqueueCrawl)]: the method is passed detached from its
    object, so every call runs with [this] undefined. *)
Fixpoint forEach_detached (method : option Crawler -> string -> Exception + Crawler)
    (arr : list string) : option Exception :=
  match arr with
  | [] => None
  | x :: rest =>
      match method None x with
      | inl thrown => Some thrown
      | inr _ => forEach_detached method rest
      end
  end.

(** ** [performCrawl] *)

Section Pipeline.

(** The constructor of [CrawlableLink]. *)
Variable newCrawlableLink : string -> CrawlableLink.

(** Line 203: [Array.from(new Set<string>(hrefsFromPage))]. *)
Definition page_hrefs (hrefsFromPage : list string) : list string :=
  JsSet.to_array (JsSet.of_list hrefsFromPage).

(** Lines 209-211: the body of the callback is the expression statement
    [link.isCrawlable]; the function returns nothing. *)
Definition crawlable_callback (link : CrawlableLink) : Js.value :=
  let _ := isCrawlable link in
  Js.Undefined.

(** Lines 207-212. *)
Definition validLinks (hrefs : list string) : list string :=
  List.map crawlableUrl
    (Js.filter crawlable_callback (List.map newCrawlableLink hrefs)).

(** Lines 215-217: again an expression statement and no [return]. *)
Definition interesting_callback (this : Crawler) (link : string) : Js.value :=
  let _ := bool_decide (hostname (newCrawlableLink link) ∈ interestingDomains this) in
  Js.Undefined.

(** Lines 214-218: the links handed to [enqueueCrawl]. *)
Definition links_to_enqueue (this : Crawler) (hrefs : list string) : list string :=
  Js.filter (interesting_callback this) (validLinks hrefs).

(** Lines 185-248, the body of [try]: the calls made, and either the
    exception that leaves the block or the [result] it assigns. A throw of
    [page.goto], [page.content] or [page.$$eval] comes before any other
    call of the block. *)
Definition try_block (this : Crawler) (url : string) (page : Page)
    : list Event * (Exception + CrawlResult) :=
  match load page with
  | LoadFails detail => ([], inl (PageError detail))
  | Loaded content hrefsFromPage =>
      let words := page_words (minimumWordLength this) content in
      let hrefs := page_hrefs hrefsFromPage in
      let valid := validLinks hrefs in
      match forEach_detached enqueueCrawl_method (links_to_enqueue this hrefs) with
      | Some thrown => ([], inl thrown)
      | None =>
          let found := collect_found (dictionary this) words in
          if 0 <? JsSet.size found then
            let res := Found url (JsSet.to_array found) valid in
            if takeScreenshots this then
              match screenshot page with
              | Some detail => ([TakeScreenshot url], inl (ScreenshotError detail))
              | None => ([TakeScreenshot url; Output (OutResult res)], inr res)
              end
            else ([Output (OutResult res)], inr res)
          else ([], inr (NotFound url))
      end
  end.

(** Lines 158-171: the progress line. Its text reads
    [this.urlQueue.length()], which throws when [init] has not created the
    queue; [output] is then not called. *)
Definition progress_line (self : Crawler) : Exception + list Event :=
  if debug self &&
     Js.rem_is_zero (counter self) (itemsToProcessBeforeLogging self)
  then
    match urlQueue self with
    | None => inl (TypeError "Cannot read properties of undefined (reading 'length')")
    | Some _ => inr [Output (OutProgress (counter self) (numberAdded self))]
    end
  else inr [].

(** Lines 153-260: the task once it is past the already-crawled test. The
    progress line, the opening of the page and its closing are outside the
    handled part of the function: a throw there rejects the promise, and the
    callback is not reached. *)
Definition crawl_page (this : Crawler) (url : string) (callback : bool)
    (page : Page) : Outcome :=
  let self := set_claimed this url in
  match progress_line self with
  | inl thrown =>
      {| crawler := self; trace := []; result := None; rejected := Some thrown |}
  | inr progress =>
      match open_error page with
      | Some detail =>
          {| crawler := self; trace := progress; result := None;
             rejected := Some (BrowserError detail) |}
      | None =>
          let tried := try_block self url page in
          let res :=
            match snd tried with
            | inr assigned => assigned
            | inl err => Failed url err
            end in
          let caught :=
            match snd tried with
            | inr _ => []
            | inl err => if debug self then [Output (OutError url err)] else []
            end in
          match close_error page with
          | Some detail =>
              {| crawler := self;
                 trace := (progress ++ fst tried ++ caught ++ [ClosePage])%list;
                 result := Some res;
                 rejected := Some (BrowserError detail) |}
          | None =>
              let reported := if callback then [Callback res] else [] in
              {| crawler := self;
                 trace := (progress ++ fst tried ++ caught ++ [ClosePage]
                           ++ reported)%list;
                 result := Some res;
                 rejected := None |}
          end
      end
  end.

(** [performCrawl(url, callback)]; [callback] tells whether the argument is
    truthy. The early [return] sits inside [if (callback)]. *)
Definition performCrawl (this : Crawler) (url : string) (callback : bool)
    (page : Page) : Outcome :=
  if bool_decide (url ∈ crawledUrls this) then
    if callback then
      {| crawler := this;
         trace := [Callback (AlreadyCrawled url)];
         result := Some (AlreadyCrawled url);
         rejected := None |}
    else crawl_page this url callback page
  else crawl_page this url callback page.

(** A task is processed when it gets past the already-crawled test. *)
Definition processed (o : Outcome) : bool :=
  match result o with
  | Some (AlreadyCrawled _) => false
  | _ => true
  end.

(** Whether a task that got past the already-crawled test goes on to open
    its page: the progress line did not throw and the browser handed out the
    page. *)
Definition page_opened (this : Crawler) (url : string) (page : Page) : bool :=
  match progress_line (set_claimed this url), open_error page with
  | inr _, None => true
  | _, _ => false
  end.

(** The tasks of a run for one url, one after the other: for each, whether
    a callback came with it and how its page behaves. The test and the
    [add] of lines 146-153 run without an [await] between them, so tasks
    that overlap in time still pass them one at a time. *)
Fixpoint attempts (this : Crawler) (url : string) (tasks : list (bool * Page))
    : Crawler * list Outcome :=
  match tasks with
  | [] => (this, [])
  | (callback, page) :: rest =>
      let o := performCrawl this url callback page in
      let later := attempts (crawler o) url rest in
      (fst later, o :: snd later)
  end.

Definition count_processed (os : list Outcome) : nat :=
  List.length (List.filter processed os).

End Pipeline.

(** ** Lifecycle *)

(** [init], when the browser launches: the queue is created; the browser and
    the screenshot directory are the environment's. *)
Definition init (this : Crawler) : Crawler * list Event :=
  (set_urlQueue this (Some []),
   if debug this then [Output OutInitializing] else []).

(** [close]: the calls made and the exception thrown, if any. With [debug]
    on the message reads [this.urlQueue.length()] (line 269), which throws
    when [init] has not created the queue; closing the browser is the
    environment's. *)
Definition close (this : Crawler) : list Event * option Exception :=
  if debug this then
    match urlQueue this with
    | None => ([], Some (TypeError "Cannot read properties of undefined (reading 'length')"))
    | Some _ => ([Output OutClosing], None)
    end
  else ([], None).

(** The function registered with [urlQueue.drain]: the crawler's fields and
    the calls made. [finished] is set before anything can throw. *)
Definition drain_callback (this : Crawler) : Crawler * list Event :=
  let self := set_finished this true in
  (self,
   ((if debug self then [Output OutQueueDrained] else []) ++ fst (close self))%list).

(** [isFinished] *)
Definition isFinished (this : Crawler) : bool := finished this.

(** ** A link classifier for the examples *)

Module SpecLink.

(** Modelled from the spec: the Link Classifier of section 4.2, standing in
    for [./crawlableLink], which is not part of the source at hand. A link is
    crawlable iff it is an absolute url with scheme http or https; the
    hostname is the authority up to the first of [/ : ? #]; the normalised
    url is the link itself. *)
Definition after_scheme (raw : string) : option string :=
  if String.prefix "http://" raw
  then Some (String.substring 7 (String.length raw - 7) raw)
  else if String.prefix "https://" raw
  then Some (String.substring 8 (String.length raw - 8) raw)
  else None.

Definition ends_host (ch : ascii) : bool :=
  Ascii.eqb ch "/" || Ascii.eqb ch ":" || Ascii.eqb ch "?" || Ascii.eqb ch "#".

Fixpoint host_of (authority : string) : string :=
  match authority with
  | EmptyString => EmptyString
  | String ch rest => if ends_host ch then EmptyString else String ch (host_of rest)
  end.

Definition classify (raw : string) : CrawlableLink :=
  match after_scheme raw with
  | Some rest => {| isCrawlable := true; crawlableUrl := raw; hostname := host_of rest |}
  | None => {| isCrawlable := false; crawlableUrl := raw; hostname := "" |}
  end.

End SpecLink.

(** ** The matcher as the specification words it *)

Module SpecMatcher.

(** Space, tab, line feed, vertical tab, form feed, carriage return and the
    no-break space. *)
Definition is_whitespace (ch : ascii) : bool :=
  let n := N_of_ascii ch in
  ((n =? 32) || (9 <=? n) && (n <=? 13) || (n =? 160))%N.

(** The pieces of the text between whitespace characters. *)
Fixpoint split_whitespace (s : string) : list string :=
  match s with
  | EmptyString => [EmptyString]
  | String ch rest =>
      if is_whitespace ch then EmptyString :: split_whitespace rest
      else match split_whitespace rest with
           | [] => [String ch EmptyString]
           | piece :: pieces => String ch piece :: pieces
           end
  end.

(** "Splits text on whitespace, lowercases each token, discards tokens whose
    length is <= minWordLength, and returns the subset present in
    dictionary." *)
Definition matches (pageText : string) (dict : gset string) (minWordLength : Z)
    : list string :=
  List.filter (fun token => bool_decide (token ∈ dict))
    (List.filter (fun token => negb (Js.length token <=? minWordLength))
       (List.map Js.toLowerCase (split_whitespace pageText))).

End SpecMatcher.

(** A line feed. *)
Definition LF : string := String (ascii_of_N 10) EmptyString.

(** ** Observations on an outcome *)

(** A result is emitted when the task hands it to [output] or to its
    callback. *)
Definition emitted (o : Outcome) (r : CrawlResult) : Prop :=
  Output (OutResult r) ∈ trace o ∨ Callback r ∈ trace o.




Definition all_lowercase (w : string) : bool :=
  forallb (fun ch => negb (Js.is_upper ch)) (list_ascii_of_string w).

(** ** Inputs of the examples *)

(** A crawler built with the default options and initialised. *)
Definition ready (dict domains : list string) : Crawler :=
  fst (init (default_Crawler dict domains)).


Definition the_dog_sat : Page :=
  {| open_error := None; load := Loaded "the dog sat" []; screenshot := None;
     close_error := None |}.

(** A page that mentions "target" and links to two hosts. *)
Definition example_page : Page :=
  {| open_error := None;
     load := Loaded "a Target page"
               ["https://example.com/a"; "https://other.com/b"];
     screenshot := None;
     close_error := None |}.

(** The same content with a link that cannot be crawled. *)
Definition mixed_page : Page :=
  {| open_error := None;
     load := Loaded "a Target page"
               ["https://example.com/a"; "mailto:me@example.com"];
     screenshot := None;
     close_error := None |}.


(** A page whose navigation times out. *)
Definition timed_out_page : Page :=
  {| open_error := None;
     load := LoadFails "TimeoutError: Navigation timeout of 10000 ms exceeded";
     screenshot := None;
     close_error := None |}.

(** ** Runs of the crawler *)

(** One operation on the crawler's fields: [init], a successful
    [enqueueCrawl], one task of the queue, or the drain callback. The queue
    itself, which decides when tasks start and when the drain callback is
    called, belongs to the [async] library. *)
Inductive Step : Crawler → Crawler → Prop :=
| step_init (this : Crawler) :
    Step this (fst (init this))
| step_enqueue (this self : Crawler) (url : string) :
    enqueueCrawl this url = inr self → Step this self
| step_task (newCrawlableLink : string → CrawlableLink) (this : Crawler)
    (url : string) (callback : bool) (page : Page) :
    Step this (crawler (performCrawl newCrawlableLink this url callback page))
| step_drain (this : Crawler) :
    Step this (fst (drain_callback this)).

Inductive Steps : Crawler → Crawler → Prop :=
| steps_refl (this : Crawler) : Steps this this
| steps_step (a b c : Crawler) : Step a b → Steps b c → Steps a c.

(** ** The queue *)








(** ** Several tasks, several pushes *)

(** The tasks of a run, one after the other, each with its url, whether a
    callback came with it, and the behaviour of its page. Every outcome is
    kept with the url of its task. *)
Fixpoint run_tasks (newCrawlableLink : string -> CrawlableLink) (this : Crawler)
    (tasks : list (string * bool * Page)) : Crawler * list (string * Outcome) :=
  match tasks with
  | [] => (this, [])
  | (url, callback, page) :: rest =>
      let o := performCrawl newCrawlableLink this url callback page in
      let later := run_tasks newCrawlableLink (crawler o) rest in
      (fst later, (url, o) :: snd later)
  end.

(** The urls of the tasks that got past the already-crawled test. *)
Definition processed_urls (outcomes : list (string * Outcome)) : list string :=
  List.map fst (List.filter (fun uo => processed (snd uo)) outcomes).

(** [urls.forEach(url => crawler.enqueueCrawl(url))]; the first throw ends
    the loop. *)
Fixpoint enqueueAll (this : Crawler) (urls : list string) : Exception + Crawler :=
  match urls with
  | [] => inr this
  | url :: rest =>
      match enqueueCrawl this url with
      | inl thrown => inl thrown
      | inr self => enqueueAll self rest
      end
  end.

Definition is_ClosePage (e : Event) : bool :=
  match e with
  | ClosePage => true
  | _ => false
  end.

Definition is_TakeScreenshot (e : Event) : bool :=
  match e with
  | TakeScreenshot _ => true
  | _ => false
  end.

(** The url a result carries. *)
Definition result_url (r : CrawlResult) : string :=
  match r with
  | Found url _ _ => url
  | NotFound url => url
  | AlreadyCrawled url => url
  | Failed url _ => url
  end.

(** ** Screenshot file names (lines 86-103 and 238-241) *)

Module Date.

(** What [formatDate] reads from a [Date]: the local year, the month counted
    from 0, the day of the month, hours, minutes and seconds. The year is not
    negative. *)
Record t : Type := mk {
  getFullYear : nat;
  getMonth : nat;
  getDate : nat;
  getHours : nat;
  getMinutes : nat;
  getSeconds : nat
}.

(** The ranges the getters of a valid [Date] stay in. *)
Definition in_range (d : t) : Prop :=
  (getMonth d < 12 ∧ 1 <= getDate d <= 31 ∧
   getHours d < 24 ∧ getMinutes d < 60 ∧ getSeconds d < 60)%nat.

End Date.

(** [num.toString()] for a non-negative integer. *)
Definition toString (num : nat) : string :=
  NilEmpty.string_of_uint (Nat.to_uint num).

(** [s.padStart(targetLength, fill)] for a one-character fill. *)
Definition padStart (targetLength : nat) (fill : ascii) (s : string) : string :=
  String.concat "" (List.repeat (String fill EmptyString)
                      (targetLength - String.length s))
  ++ s.

(** Lines 87-89. *)
Definition padTo2Digits (num : nat) : string :=
  padStart 2 "0" (toString num).

(** [parts.join(sep)] *)
Definition join (sep : string) (parts : list string) : string :=
  String.concat sep parts.

(** Lines 90-102. *)
Definition formatDate (date : Date.t) : string :=
  join "-" [toString (Date.getFullYear date);
            padTo2Digits (Date.getMonth date + 1);
            padTo2Digits (Date.getDate date)]
  ++ "_"
  ++ join "" [padTo2Digits (Date.getHours date);
              padTo2Digits (Date.getMinutes date);
              padTo2Digits (Date.getSeconds date)].

(** [s.replaceAll(from, to)] for one-character [from] and [to]. *)
Fixpoint replaceAll (from to : ascii) (s : string) : string :=
  match s with
  | EmptyString => EmptyString
  | String ch rest =>
      String (if Ascii.eqb ch from then to else ch) (replaceAll from to rest)
  end.

(** Lines 238-240, applied to [new URL(url).href]. *)
Definition screenshot_name (href : string) : string :=
  replaceAll "." "_" (replaceAll "/" "_" (replaceAll ":" "_" href)).

(** Lines 238-241: the [path] option of [page.screenshot]. *)
Definition screenshot_file (screenshotPath href : string) (now : Date.t) : string :=
  screenshotPath ++ "/" ++ screenshot_name href ++ "_" ++ formatDate now ++ ".png".

(** Reading a decimal numeral back. *)
Definition parseDecimal (s : string) : option nat :=
  option_map Nat.of_uint (NilEmpty.uint_of_string s).

Definition is_digit (ch : ascii) : bool :=
  let n := N_of_ascii ch in ((48 <=? n) && (n <=? 57))%N.

Definition chars (s : string) : list ascii := list_ascii_of_string s.

(** * Properties *)

(** ** Sanity checks of the embedding *)

Example split_the_dog_sat :
  Js.split " "%char "the dog sat" = ["the"; "dog"; "sat"].
Proof. reflexivity. Qed.

Example split_keeps_empty_pieces :
  Js.split " "%char " a  b " = [""; "a"; ""; "b"; ""].
Proof. reflexivity. Qed.

Example matches_dogs : page_matches dog_cat 2 "The DOG sat dog" = ["dog"].
Proof. vm_compute. reflexivity. Qed.

Example classify_example :
  SpecLink.classify "https://example.com/a"
  = {| isCrawlable := true; crawlableUrl := "https://example.com/a";
       hostname := "example.com" |}.
Proof. reflexivity. Qed.

Example classify_mailto :
  isCrawlable (SpecLink.classify "mailto:me@example.com") = false.
Proof. reflexivity. Qed.

(** ** Strings and sets *)

Lemma lower_char_idempotent (ch : ascii) :
  Js.lower_char (Js.lower_char ch) = Js.lower_char ch.
Proof.
  destruct ch as [b0 b1 b2 b3 b4 b5 b6 b7].
  destruct b0, b1, b2, b3, b4, b5, b6, b7; reflexivity.
Qed.

Lemma lower_char_not_upper (ch : ascii) :
  Js.is_upper (Js.lower_char ch) = false.
Proof.
  destruct ch as [b0 b1 b2 b3 b4 b5 b6 b7].
  destruct b0, b1, b2, b3, b4, b5, b6, b7; reflexivity.
Qed.

Lemma toLowerCase_idempotent (s : string) :
  Js.toLowerCase (Js.toLowerCase s) = Js.toLowerCase s.
Proof.
  induction s as [|ch rest IH]; simpl; [reflexivity|].
  now rewrite lower_char_idempotent, IH.
Qed.

Lemma toLowerCase_no_upper (s : string) :
  all_lowercase (Js.toLowerCase s) = true.
Proof.
  unfold all_lowercase. induction s as [|ch rest IH]; simpl; [reflexivity|].
  now rewrite lower_char_not_upper, IH.
Qed.

Lemma toLowerCase_length (s : string) :
  Js.length (Js.toLowerCase s) = Js.length s.
Proof.
  unfold Js.length. f_equal.
  induction s as [|ch rest IH]; simpl; congruence.
Qed.

Lemma JsSet_elem_of_add (s : JsSet.t) (x y : string) :
  y ∈ JsSet.add s x ↔ y ∈ s ∨ y = x.
Proof.
  unfold JsSet.add, JsSet.has. case_bool_decide as Hin.
  - split; [tauto|]. intros [H| ->]; assumption.
  - rewrite elem_of_app, list_elem_of_singleton. tauto.
Qed.

Lemma JsSet_NoDup_add (s : JsSet.t) (x : string) :
  NoDup s → NoDup (JsSet.add s x).
Proof.
  intros Hs. unfold JsSet.add, JsSet.has. case_bool_decide as Hin; [assumption|].
  apply NoDup_app. split; [assumption|]. split.
  - intros y Hy Hyx. apply list_elem_of_singleton in Hyx. subst y. contradiction.
  - apply NoDup_singleton.
Qed.

Lemma Js_filter_undefined {A : Type} (f : A -> Js.value) (arr : list A) :
  (forall x, f x = Js.Undefined) → Js.filter f arr = [].
Proof.
  intros Hf. unfold Js.filter.
  induction arr as [|x rest IH]; simpl; [reflexivity|].
  now rewrite Hf.
Qed.

(** ** The matcher *)

Lemma elem_of_page_words (minLength : Z) (content w : string) :
  w ∈ page_words minLength content ↔
  (∃ token, token ∈ Js.split " "%char content ∧ w = Js.toLowerCase token) ∧
  minLength < Js.length w.
Proof.
  unfold page_words.
  rewrite list_elem_of_In, filter_In, in_map_iff, Z.ltb_lt.
  split.
  - intros [(token & <- & Hin) Hlen]. split; [|assumption].
    exists token. now rewrite list_elem_of_In.
  - intros [(token & Hin & ->) Hlen]. split; [|assumption].
    exists token. now rewrite <- list_elem_of_In.
Qed.

Lemma collect_from (dict : gset string) (words : list string) (acc : JsSet.t) (w : string) :
  w ∈ fold_left
        (fun found word =>
           if bool_decide (word ∈ dict) then JsSet.add found word else found)
        words acc
  ↔ w ∈ acc ∨ (w ∈ words ∧ w ∈ dict).
Proof.
  revert acc. induction words as [|word rest IH]; intros acc; simpl.
  - split; [tauto|]. intros [H|[H _]]; [assumption|]. inversion H.
  - rewrite IH, elem_of_cons. case_bool_decide as Hd.
    + rewrite JsSet_elem_of_add. split.
      * intros [[H| ->]|[H1 H2]]; tauto.
      * intros [H|[[->|H1] H2]]; tauto.
    + split.
      * intros [H|[H1 H2]]; tauto.
      * intros [H|[[->|H1] H2]]; tauto.
Qed.

Lemma collect_NoDup (dict : gset string) (words : list string) (acc : JsSet.t) :
  NoDup acc →
  NoDup (fold_left
           (fun found word =>
              if bool_decide (word ∈ dict) then JsSet.add found word else found)
           words acc).
Proof.
  revert acc. induction words as [|word rest IH]; intros acc Hacc; simpl.
  - assumption.
  - apply IH. case_bool_decide; [now apply JsSet_NoDup_add | assumption].
Qed.

Lemma elem_of_page_matches (dict : gset string) (minLength : Z) (content w : string) :
  w ∈ page_matches dict minLength content ↔
  (∃ token, token ∈ Js.split " "%char content ∧ w = Js.toLowerCase token) ∧
  minLength < Js.length w ∧ w ∈ dict.
Proof.
  unfold page_matches, JsSet.to_array, collect_found, JsSet.empty.
  rewrite collect_from, elem_of_page_words. split.
  - intros [H|[[H1 H2] H3]]; [inversion H | tauto].
  - intros [H1 [H2 H3]]. right. tauto.
Qed.

(** C5 (amended): the matcher returns, without repetition, exactly the tokens
    obtained by splitting the content at each single space character (and at
    no other whitespace), lowercasing each token, keeping the tokens whose
    length is strictly greater than the minimum word length and that are
    present in the dictionary. *)
Theorem matcher_splits_on_space (dict : gset string) (minLength : Z) (content : string) :
  NoDup (page_matches dict minLength content) ∧
  ∀ w : string,
    w ∈ page_matches dict minLength content ↔
    (∃ token, token ∈ Js.split " "%char content ∧ w = Js.toLowerCase token) ∧
    minLength < Js.length w ∧ w ∈ dict.
Proof.
  split.
  - unfold page_matches, JsSet.to_array, collect_found.
    apply collect_NoDup. apply NoDup_nil. exact I.
  - intros w. apply elem_of_page_matches.
Qed.

(** C5 (as stated, refuted): on the content "cat", line feed, "dogs", a split
    on whitespace yields the token "dogs", which is in the dictionary and
    longer than 3; the code splits at spaces only, sees the single token
    "cat\ndogs" and matches nothing. *)
Lemma matcher_not_whitespace_split :
  ¬ (∀ w : string,
       w ∈ page_matches {[ "dogs" ]} 3 ("cat" ++ LF ++ "dogs") ↔
       w ∈ SpecMatcher.matches ("cat" ++ LF ++ "dogs") {[ "dogs" ]} 3).
Proof.
  intros H.
  assert (Hcode : page_matches {[ "dogs" ]} 3 ("cat" ++ LF ++ "dogs") = [])
    by (vm_compute; reflexivity).
  assert (Hspec : SpecMatcher.matches ("cat" ++ LF ++ "dogs") {[ "dogs" ]} 3 = ["dogs"])
    by (vm_compute; reflexivity).
  specialize (H "dogs"). rewrite Hcode, Hspec in H.
  destruct H as [_ H].
  assert (Hin : "dogs" ∈ ["dogs"]) by (apply list_elem_of_singleton; reflexivity).
  apply H in Hin. inversion Hin.
Qed.

(** C6: with dictionary {"dog","cat"}, minimum word length 3 and content
    "the dog sat", the code matches nothing: "dog" has length 3, which is not
    strictly greater than 3, so the filter of line 195 drops it together with
    "the" and "sat". With minimum word length 2 the match is {"dog"}. *)
Theorem the_dog_sat_matches_nothing :
  page_words 3 "the dog sat" = [] ∧
  page_matches (list_to_set ["dog"; "cat"]) 3 "the dog sat" = [] ∧
  page_matches (list_to_set ["dog"; "cat"]) 2 "the dog sat" = ["dog"] ∧
  minimumWordLength (ready ["dog"; "cat"] []) = 3 ∧
  result (performCrawl SpecLink.classify (ready ["dog"; "cat"] [])
            "https://a.test" true the_dog_sat)
  = Some (NotFound "https://a.test").
Proof. repeat split; vm_compute; reflexivity. Qed.

(** ** The pipeline, step by step *)

Section PipelineFacts.

Variable newCrawlableLink : string -> CrawlableLink.


(** Neither filter callback returns a value, so both filters keep nothing. *)
Lemma validLinks_nil (hrefs : list string) : validLinks newCrawlableLink hrefs = [].
Proof.
  unfold validLinks.
  rewrite Js_filter_undefined; [reflexivity|]. intros link. reflexivity.
Qed.

Lemma links_to_enqueue_nil (this : Crawler) (hrefs : list string) :
  links_to_enqueue newCrawlableLink this hrefs = [].
Proof.
  unfold links_to_enqueue.
  apply Js_filter_undefined. intros link. reflexivity.
Qed.

(** The [try] block, by the cases of the page. *)
Lemma try_block_cases (this : Crawler) (url : string) (page : Page) :
  try_block newCrawlableLink this url page =
  match load page with
  | LoadFails detail => ([], inl (PageError detail))
  | Loaded content hrefsFromPage =>
      let found := page_matches (dictionary this) (minimumWordLength this) content in
      let res := Found url found (validLinks newCrawlableLink (page_hrefs hrefsFromPage)) in
      match found with
      | [] => ([], inr (NotFound url))
      | _ :: _ =>
          if takeScreenshots this then
            match screenshot page with
            | Some detail => ([TakeScreenshot url], inl (ScreenshotError detail))
            | None => ([TakeScreenshot url; Output (OutResult res)], inr res)
            end
          else ([Output (OutResult res)], inr res)
      end
  end.
Proof.
  unfold try_block. destruct (load page) as [detail|content hrefsFromPage];
    [reflexivity|].
  rewrite links_to_enqueue_nil. cbn [forEach_detached].
  unfold page_matches, JsSet.to_array, JsSet.size.
  destruct (collect_found _ _) as [|w found]; reflexivity.
Qed.

End PipelineFacts.

(** Every trace is one of a few shapes; [crawl_cases] walks through them. *)
Ltac crawl_cases this url callback page :=
  unfold performCrawl, crawl_page, progress_line;
  rewrite ?try_block_cases;
  cbn [dictionary minimumWordLength takeScreenshots debug counter numberAdded
       itemsToProcessBeforeLogging urlQueue set_claimed];
  destruct (bool_decide (url ∈ crawledUrls this)) eqn:?Hcrawled;
  destruct callback;
  repeat first
    [ progress cbn [fst snd]
    | match goal with
      | |- context [if debug this && ?b then _ else _] =>
          destruct (debug this && b) eqn:?Hprogress
      | |- context [match urlQueue this with _ => _ end] =>
          destruct (urlQueue this) as [?queue|] eqn:?Hqueue
      | |- context [match open_error page with _ => _ end] =>
          destruct (open_error page) as [?unopened|] eqn:?Hopen
      | |- context [match load page with _ => _ end] =>
          destruct (load page) as [?detail|?content ?hrefsFromPage] eqn:?Hload
      | |- context [match page_matches ?d ?n ?c with _ => _ end] =>
          destruct (page_matches d n c) as [|?w ?found] eqn:?Hfound
      | |- context [if takeScreenshots this then _ else _] =>
          destruct (takeScreenshots this) eqn:?Hshots
      | |- context [match screenshot page with _ => _ end] =>
          destruct (screenshot page) as [?failure|] eqn:?Hscreenshot
      | |- context [match close_error page with _ => _ end] =>
          destruct (close_error page) as [?unclosed|] eqn:?Hclose
      | |- context [if debug this then _ else _] =>
          destruct (debug this) eqn:?Hdebug
      end ];
  cbn [fst snd app trace result rejected crawler].

Section TaskFacts.

Variable newCrawlableLink : string -> CrawlableLink.

Lemma emitted_Found_inv (this : Crawler) (url : string) (callback : bool) (page : Page)
    (u : string) (ms ls : list string) :
  emitted (performCrawl newCrawlableLink this url callback page) (Found u ms ls) →
  ∃ content hrefsFromPage,
    load page = Loaded content hrefsFromPage ∧
    u = url ∧
    ms = page_matches (dictionary this) (minimumWordLength this) content ∧
    ls = validLinks newCrawlableLink (page_hrefs hrefsFromPage) ∧
    result (performCrawl newCrawlableLink this url callback page)
    = Some (Found u ms ls).
Proof.
  unfold emitted.
  crawl_cases this url callback page.
  all: intros [Hemit|Hemit].
  all: repeat (apply elem_of_cons in Hemit; destruct Hemit as [Hemit|Hemit];
               [try discriminate Hemit|]).
  all: try (apply not_elem_of_nil in Hemit; contradiction).
  all: simplify_eq.
  all: eexists _, _; repeat split; try reflexivity; try eassumption.
  all: symmetry; assumption.
Qed.

(** *** What a task leaves in the crawler *)

(** Past the already-crawled test the url is claimed and counted, whichever
    way the task ends. *)
Lemma crawler_crawl_page (this : Crawler) (url : string) (callback : bool)
    (page : Page) :
  crawler (crawl_page newCrawlableLink this url callback page) = set_claimed this url.
Proof.
  unfold crawl_page.
  destruct (progress_line (set_claimed this url)); [reflexivity|].
  destruct (open_error page); [reflexivity|].
  destruct (close_error page); reflexivity.
Qed.

Lemma crawler_performCrawl (this : Crawler) (url : string) (callback : bool)
    (page : Page) :
  crawler (performCrawl newCrawlableLink this url callback page)
  = if bool_decide (url ∈ crawledUrls this) && callback then this
    else set_claimed this url.
Proof.
  unfold performCrawl.
  destruct (bool_decide (url ∈ crawledUrls this)), callback; cbn [andb];
    try apply crawler_crawl_page; reflexivity.
Qed.

Lemma performCrawl_keeps_settings (this : Crawler) (url : string) (callback : bool)
    (page : Page) :
  let self := crawler (performCrawl newCrawlableLink this url callback page) in
  dictionary self = dictionary this ∧
  interestingDomains self = interestingDomains this ∧
  minimumWordLength self = minimumWordLength this ∧
  takeScreenshots self = takeScreenshots this ∧
  debug self = debug this ∧
  finished self = finished this.
Proof.
  cbn zeta. rewrite crawler_performCrawl.
  destruct (bool_decide (url ∈ crawledUrls this) && callback); cbn; repeat split.
Qed.

(** No task pushes on the queue or counts an added url: the list handed to
    [forEach] is always empty. *)
Lemma performCrawl_never_enqueues (this : Crawler) (url : string) (callback : bool)
    (page : Page) :
  let self := crawler (performCrawl newCrawlableLink this url callback page) in
  urlQueue self = urlQueue this ∧ numberAdded self = numberAdded this.
Proof.
  cbn zeta. rewrite crawler_performCrawl.
  destruct (bool_decide (url ∈ crawledUrls this) && callback); cbn; split; reflexivity.
Qed.

Lemma performCrawl_processed (this : Crawler) (url : string) (callback : bool)
    (page : Page) :
  processed (performCrawl newCrawlableLink this url callback page)
  = negb (bool_decide (url ∈ crawledUrls this) && callback).
Proof.
  unfold processed.
  crawl_cases this url callback page; reflexivity.
Qed.

(** A processed task claims its url and counts itself, whatever happens to
    the page afterwards. *)
Lemma processed_claims (this : Crawler) (url : string) (callback : bool) (page : Page) :
  let o := performCrawl newCrawlableLink this url callback page in
  processed o = true →
  crawledUrls (crawler o) = {[ url ]} ∪ crawledUrls this ∧
  counter (crawler o) = counter this + 1.
Proof.
  cbn zeta. rewrite performCrawl_processed, crawler_performCrawl.
  destruct (bool_decide (url ∈ crawledUrls this) && callback); cbn;
    try discriminate; intros _; split; reflexivity.
Qed.

(** A task that is not processed changes nothing. *)
Lemma unprocessed_is_noop (this : Crawler) (url : string) (callback : bool) (page : Page) :
  let o := performCrawl newCrawlableLink this url callback page in
  processed o = false →
  crawler o = this ∧ result o = Some (AlreadyCrawled url) ∧
  trace o = [Callback (AlreadyCrawled url)].
Proof.
  cbn zeta. rewrite performCrawl_processed.
  unfold performCrawl.
  destruct (bool_decide (url ∈ crawledUrls this)), callback; cbn [andb negb];
    try discriminate; intros _; repeat split.
Qed.

(** The claimed urls only grow and the counter never goes down. *)
Lemma performCrawl_monotone (this : Crawler) (url : string) (callback : bool)
    (page : Page) :
  let self := crawler (performCrawl newCrawlableLink this url callback page) in
  crawledUrls this ⊆ crawledUrls self ∧ counter this <= counter self.
Proof.
  cbn zeta. rewrite crawler_performCrawl.
  destruct (bool_decide (url ∈ crawledUrls this) && callback); cbn;
    split; try set_solver; lia.
Qed.

(** *** What a task reports *)

(** C9: whenever a Found result is emitted, to [output] or to the callback,
    every element of its matches is a member of the dictionary, is entirely
    lowercase and has length strictly greater than [minimumWordLength]; the
    matches are a subset of the dictionary. *)
Theorem found_matches_sound (this : Crawler) (url : string) (callback : bool)
    (page : Page) (u : string) (ms ls : list string) :
  emitted (performCrawl newCrawlableLink this url callback page) (Found u ms ls) →
  (∀ w : string, w ∈ ms →
     w ∈ dictionary this ∧
     Js.toLowerCase w = w ∧ all_lowercase w = true ∧
     minimumWordLength this < Js.length w) ∧
  list_to_set ms ⊆ dictionary this.
Proof.
  intros Hemit.
  apply emitted_Found_inv in Hemit
    as (content & hrefsFromPage & _ & _ & -> & _ & _).
  assert (Hall : ∀ w : string,
             w ∈ page_matches (dictionary this) (minimumWordLength this) content →
             w ∈ dictionary this ∧
             Js.toLowerCase w = w ∧ all_lowercase w = true ∧
             minimumWordLength this < Js.length w).
  { intros w Hw. apply elem_of_page_matches in Hw
      as ((token & _ & ->) & Hlen & Hdict).
    repeat split; try assumption.
    - apply toLowerCase_idempotent.
    - apply toLowerCase_no_upper. }
  split; [exact Hall|].
  intros w Hw. apply elem_of_list_to_set in Hw. now apply Hall.
Qed.

(** C7 (amended): for every page with a non-empty match set, non-crawlable
    outbound links found on the page are excluded from the set of candidate
    links considered for frontier expansion, and they are not included in the
    links field of the emitted Found result either: that field is the list of
    valid links itself, not the list of links observed. *)
Theorem found_links_exclude_non_crawlable (this : Crawler) (url : string)
    (callback : bool) (page : Page) (u : string) (ms ls : list string) :
  emitted (performCrawl newCrawlableLink this url callback page) (Found u ms ls) →
  ∃ content hrefsFromPage,
    load page = Loaded content hrefsFromPage ∧
    ls = validLinks newCrawlableLink (page_hrefs hrefsFromPage) ∧
    ∀ raw : string,
      raw ∈ hrefsFromPage →
      isCrawlable (newCrawlableLink raw) = false →
      (crawlableUrl (newCrawlableLink raw)
         ∉ links_to_enqueue newCrawlableLink this (page_hrefs hrefsFromPage)) ∧
      (crawlableUrl (newCrawlableLink raw) ∉ ls) ∧
      (raw ∉ ls).
Proof.
  intros Hemit.
  apply emitted_Found_inv in Hemit
    as (content & hrefsFromPage & Hload & _ & _ & -> & _).
  exists content, hrefsFromPage. repeat split; try assumption.
  - rewrite links_to_enqueue_nil. apply not_elem_of_nil.
  - rewrite validLinks_nil. apply not_elem_of_nil.
  - rewrite validLinks_nil. apply not_elem_of_nil.
Qed.



End TaskFacts.

(** ** Runs *)

Lemma Step_monotone (a b : Crawler) :
  Step a b →
  crawledUrls a ⊆ crawledUrls b ∧ counter a <= counter b ∧
  (finished a = true → finished b = true).
Proof.
  intros [this | this self url Hpush | newLink this url callback page | this].
  - cbn. repeat split; [set_solver | lia | tauto].
  - unfold enqueueCrawl, enqueueCrawl_method in Hpush.
    destruct (urlQueue this) as [queue|]; [|discriminate Hpush].
    injection Hpush as <-. cbn. repeat split; [set_solver | lia | tauto].
  - destruct (performCrawl_monotone newLink this url callback page) as [Hsub Hle].
    destruct (performCrawl_keeps_settings newLink this url callback page)
      as (_ & _ & _ & _ & _ & Hfin).
    cbn zeta in *. rewrite Hfin. repeat split; [assumption | assumption | tauto].
  - cbn. repeat split; [set_solver | lia].
Qed.

Lemma Steps_monotone (a b : Crawler) :
  Steps a b →
  crawledUrls a ⊆ crawledUrls b ∧ counter a <= counter b ∧
  (finished a = true → finished b = true).
Proof.
  induction 1 as [this | a b c Hab Hbc IH].
  - repeat split; [set_solver | lia | tauto].
  - apply Step_monotone in Hab as (Hsub & Hle & Hfin).
    destruct IH as (Hsub' & Hle' & Hfin').
    repeat split; [set_solver | lia | tauto].
Qed.

(** The drain callback raises [finished]; nothing in the class lowers it. *)
Lemma drain_callback_finishes (this : Crawler) :
  isFinished (fst (drain_callback this)) = true.
Proof. reflexivity. Qed.

Lemma finished_never_reverts (a b : Crawler) :
  Steps a b → isFinished a = true → isFinished b = true.
Proof. intros Hsteps. apply Steps_monotone in Hsteps. tauto. Qed.

Lemma new_Crawler_not_finished (dict : list string) (dbg shots : bool)
    (simultaneous timeout : Z) (domains crawled : list string)
    (minLength logEvery : Z) (path : string) :
  isFinished (new_Crawler dict dbg shots simultaneous timeout domains crawled
                minLength logEvery path) = false.
Proof. reflexivity. Qed.

Section Attempts.

Variable newCrawlableLink : string -> CrawlableLink.

(** Once the url is claimed, tasks that carry a callback are all answered
    [AlreadyCrawled] and leave the crawler as it is. *)
Lemma claimed_attempts_with_callback (this : Crawler) (url : string)
    (tasks : list (bool * Page)) :
  url ∈ crawledUrls this →
  Forall (fun task => fst task = true) tasks →
  fst (attempts newCrawlableLink this url tasks) = this ∧
  count_processed (snd (attempts newCrawlableLink this url tasks)) = 0%nat.
Proof.
  intros Hin Hall. induction Hall as [|[callback page] rest Hcb Hrest IH].
  - split; reflexivity.
  - cbn in Hcb. subst callback. cbn [attempts fst snd].
    assert (Hnoop : processed (performCrawl newCrawlableLink this url true page) = false).
    { rewrite performCrawl_processed, bool_decide_eq_true_2 by assumption.
      reflexivity. }
    destruct (unprocessed_is_noop newCrawlableLink this url true page Hnoop)
      as (Hsame & _ & _).
    rewrite Hsame. destruct IH as [IH1 IH2]. split; [assumption|].
    unfold count_processed in *. cbn [List.filter]. rewrite Hnoop. assumption.
Qed.

(** When every task for a url carries a callback, at most one of them is
    processed. *)
Lemma attempts_with_callback_at_most_once (this : Crawler) (url : string)
    (tasks : list (bool * Page)) :
  Forall (fun task => fst task = true) tasks →
  (count_processed (snd (attempts newCrawlableLink this url tasks)) <= 1)%nat.
Proof.
  intros Hall. destruct Hall as [|[callback page] rest Hcb Hrest].
  - cbn. lia.
  - cbn in Hcb. subst callback. cbn [attempts fst snd].
    unfold count_processed. cbn [List.filter].
    destruct (processed (performCrawl newCrawlableLink this url true page)) eqn:Hproc.
    + destruct (processed_claims newCrawlableLink this url true page Hproc)
        as [Hclaimed _].
      assert (Hin : url ∈ crawledUrls
                      (crawler (performCrawl newCrawlableLink this url true page))).
      { rewrite Hclaimed. apply elem_of_union_l, elem_of_singleton. reflexivity. }
      destruct (claimed_attempts_with_callback _ url rest Hin Hrest) as [_ Hzero].
      unfold count_processed in Hzero. cbn [List.length]. rewrite Hzero. lia.
    + destruct (unprocessed_is_noop newCrawlableLink this url true page Hproc)
        as (Hsame & _ & _).
      rewrite Hsame.
      assert (Hin : url ∈ crawledUrls this).
      { rewrite performCrawl_processed in Hproc.
        destruct (bool_decide (url ∈ crawledUrls this)) eqn:Hb; [|discriminate Hproc].
        now apply bool_decide_eq_true in Hb. }
      destruct (claimed_attempts_with_callback this url rest Hin Hrest) as [_ Hzero].
      unfold count_processed in Hzero. rewrite Hzero. lia.
Qed.

(** After a failed fetch of a processed task that opened its page the url
    stays claimed and counted in every later state of the run, and a later
    task for it that carries a callback is answered [AlreadyCrawled]. *)
Lemma failed_fetch_keeps_claim (this : Crawler) (url : string) (callback : bool)
    (page : Page) (detail : string) :
  let o := performCrawl newCrawlableLink this url callback page in
  processed o = true →
  page_opened this url page = true →
  load page = LoadFails detail →
  result o = Some (Failed url (PageError detail)) ∧
  ∀ later : Crawler, Steps (crawler o) later →
    url ∈ crawledUrls later ∧ counter this + 1 <= counter later ∧
    ∀ page' : Page,
      result (performCrawl newCrawlableLink later url true page')
      = Some (AlreadyCrawled url).
Proof.
  cbn zeta. intros Hproc Hopened Hload.
  destruct (processed_claims newCrawlableLink this url callback page Hproc)
    as [Hclaimed Hcount].
  split.
  - rewrite performCrawl_processed in Hproc. revert Hproc Hopened.
    unfold page_opened, progress_line.
    cbn [debug counter itemsToProcessBeforeLogging urlQueue numberAdded set_claimed].
    crawl_cases this url callback page; intros Hproc Hopened;
      try discriminate Hproc; try discriminate Hopened; simplify_eq; reflexivity.
  - intros later Hsteps. apply Steps_monotone in Hsteps as (Hsub & Hle & _).
    assert (Hin : url ∈ crawledUrls later).
    { apply Hsub. rewrite Hclaimed.
      apply elem_of_union_l, elem_of_singleton. reflexivity. }
    repeat split; [assumption | lia |].
    intros page'.
    assert (Hnoop : processed (performCrawl newCrawlableLink later url true page') = false).
    { rewrite performCrawl_processed, bool_decide_eq_true_2 by assumption.
      reflexivity. }
    now destruct (unprocessed_is_noop newCrawlableLink later url true page' Hnoop)
      as (_ & Hres & _).
Qed.

End Attempts.

(** ** The claims on concrete runs *)

(** C1: two tasks for the same url, neither with a callback, are both
    processed: the second passes the already-crawled test without returning,
    claims the url again, counts itself and reports the page a second time.
    With callbacks on every task at most one is processed
    ([attempts_with_callback_at_most_once]). *)
Theorem duplicate_without_callback_processed_twice :
  let run := attempts SpecLink.classify (ready ["target"] ["example.com"])
               "https://example.com/"
               [(false, example_page); (false, example_page)] in
  count_processed (snd run) = 2%nat ∧
  counter (fst run) = 2 ∧
  List.map result (snd run)
  = [Some (Found "https://example.com/" ["target"] []);
     Some (Found "https://example.com/" ["target"] [])].
Proof. vm_compute. repeat split; reflexivity. Qed.

(** C2: with interesting domains {"example.com"} and a page whose links are
    "https://example.com/a" and "https://other.com/b", the task enqueues
    nothing: the link on the interesting host is crawlable and its hostname is
    in the set, yet the queue stays empty and [numberAdded] stays 0. *)
Theorem interesting_link_not_enqueued :
  let this := ready ["target"] ["example.com"] in
  let o := performCrawl SpecLink.classify this "https://example.com/" true
             example_page in
  isCrawlable (SpecLink.classify "https://example.com/a") = true ∧
  bool_decide (hostname (SpecLink.classify "https://example.com/a")
               ∈ interestingDomains this) = true ∧
  urlQueue this = Some [] ∧
  result o = Some (Found "https://example.com/" ["target"] []) ∧
  urlQueue (crawler o) = Some [] ∧
  numberAdded (crawler o) = 0.
Proof. vm_compute. repeat split; reflexivity. Qed.

(** C10: a task without callback whose fetch times out leaves its url in
    [crawledUrls] and the counter at 1; a second task for the same url, again
    without callback, is nevertheless processed: the url is fetched again and
    the counter reaches 2. The state the failure leaves behind, and the refusal
    of later tasks that carry a callback, are [failed_fetch_keeps_claim]. *)
Theorem failed_url_without_callback_retried :
  let first := performCrawl SpecLink.classify (ready ["target"] ["example.com"])
                 "https://example.com/" false timed_out_page in
  let second := performCrawl SpecLink.classify (crawler first)
                  "https://example.com/" false example_page in
  result first
  = Some (Failed "https://example.com/"
            (PageError "TimeoutError: Navigation timeout of 10000 ms exceeded")) ∧
  bool_decide ("https://example.com/" ∈ crawledUrls (crawler first)) = true ∧
  counter (crawler first) = 1 ∧
  processed second = true ∧
  result second = Some (Found "https://example.com/" ["target"] []) ∧
  counter (crawler second) = 2.
Proof. vm_compute. repeat split; reflexivity. Qed.


(** C7 (as stated, refuted): the page matches and carries the link
    "mailto:me@example.com", which is not crawlable; the emitted Found result
    does not list it. *)
Lemma non_crawlable_link_not_reported :
  let o := performCrawl SpecLink.classify (ready ["target"] ["example.com"])
             "https://example.com/" true mixed_page in
  load mixed_page
  = Loaded "a Target page" ["https://example.com/a"; "mailto:me@example.com"] ∧
  isCrawlable (SpecLink.classify "mailto:me@example.com") = false ∧
  crawlableUrl (SpecLink.classify "mailto:me@example.com")
  = "mailto:me@example.com" ∧
  ∃ ls : list string,
    emitted o (Found "https://example.com/" ["target"] ls) ∧
    "mailto:me@example.com" ∉ ls.
Proof.
  cbn zeta. repeat split; try reflexivity.
  exists []. split.
  - left. apply list_elem_of_In. vm_compute. left. reflexivity.
  - apply not_elem_of_nil.
Qed.


(** ** Instances *)

(** [found_matches_sound] on the example page. *)
Lemma found_matches_sound_witness :
  let this := ready ["target"] ["example.com"] in
  let o := performCrawl SpecLink.classify this "https://example.com/" true
             example_page in
  emitted o (Found "https://example.com/" ["target"] []) ∧
  (∀ w : string, w ∈ ["target"] →
     w ∈ dictionary this ∧
     Js.toLowerCase w = w ∧ all_lowercase w = true ∧
     minimumWordLength this < Js.length w) ∧
  list_to_set ["target"] ⊆ dictionary this.
Proof.
  cbn zeta.
  assert (Hemit : emitted
                    (performCrawl SpecLink.classify (ready ["target"] ["example.com"])
                       "https://example.com/" true example_page)
                    (Found "https://example.com/" ["target"] [])).
  { left. apply list_elem_of_In. vm_compute. left. reflexivity. }
  split; [exact Hemit|].
  exact (found_matches_sound SpecLink.classify (ready ["target"] ["example.com"])
           "https://example.com/" true example_page
           "https://example.com/" ["target"] [] Hemit).
Defined.

(** [found_links_exclude_non_crawlable] on the page with a mailto link, which
    is on the page and not crawlable. *)
Lemma found_links_exclude_non_crawlable_witness :
  let this := ready ["target"] ["example.com"] in
  let o := performCrawl SpecLink.classify this "https://example.com/" true
             mixed_page in
  emitted o (Found "https://example.com/" ["target"] []) ∧
  "mailto:me@example.com"
    ∈ ["https://example.com/a"; "mailto:me@example.com"] ∧
  isCrawlable (SpecLink.classify "mailto:me@example.com") = false ∧
  ∃ content hrefsFromPage,
    load mixed_page = Loaded content hrefsFromPage ∧
    [] = validLinks SpecLink.classify (page_hrefs hrefsFromPage) ∧
    ∀ raw : string,
      raw ∈ hrefsFromPage →
      isCrawlable (SpecLink.classify raw) = false →
      (crawlableUrl (SpecLink.classify raw)
         ∉ links_to_enqueue SpecLink.classify this (page_hrefs hrefsFromPage)) ∧
      (crawlableUrl (SpecLink.classify raw) ∉ []) ∧
      (raw ∉ []).
Proof.
  cbn zeta.
  assert (Hemit : emitted
                    (performCrawl SpecLink.classify (ready ["target"] ["example.com"])
                       "https://example.com/" true mixed_page)
                    (Found "https://example.com/" ["target"] [])).
  { left. apply list_elem_of_In. vm_compute. left. reflexivity. }
  split; [exact Hemit|].
  split; [apply elem_of_cons; right; apply list_elem_of_singleton; reflexivity|].
  split; [reflexivity|].
  exact (found_links_exclude_non_crawlable SpecLink.classify
           (ready ["target"] ["example.com"])
           "https://example.com/" true mixed_page
           "https://example.com/" ["target"] [] Hemit).
Defined.


(** * Further properties of the class *)

Example formatDate_example :
  formatDate (Date.mk 2026 10 1 9 5 59) = "2026-11-01_090559".
Proof. reflexivity. Qed.

Example screenshot_file_example :
  screenshot_file "./screenshots" "https://a.test/x.html" (Date.mk 2026 10 1 9 5 59)
  = "./screenshots/https___a_test_x_html_2026-11-01_090559.png".
Proof. reflexivity. Qed.

(** ** [enqueueCrawl] *)

(** X1: on a crawler that was constructed but not initialised, whatever the
    constructor's arguments, [enqueueCrawl] throws a TypeError (the queue does
    not exist yet); after [init] the same call succeeds, the queue holds the
    url and [numberAdded] is 1. *)
Theorem enqueueCrawl_needs_init (dict : list string) (dbg shots : bool)
    (simultaneous timeout : Z) (domains crawled : list string)
    (minLength logEvery : Z) (path url : string) :
  let fresh := new_Crawler dict dbg shots simultaneous timeout domains crawled
                 minLength logEvery path in
  (∃ detail, enqueueCrawl fresh url = inl (TypeError detail)) ∧
  ∃ self, enqueueCrawl (fst (init fresh)) url = inr self ∧
          urlQueue self = Some [url] ∧ numberAdded self = 1.
Proof.
  cbn zeta. split.
  - eexists. reflexivity.
  - eexists. split; [reflexivity|]. split; reflexivity.
Qed.

(** X2: on an initialised crawler a series of [enqueueCrawl] calls never
    throws and pushes every url, in order, duplicates and already crawled urls
    included: the queue grows by exactly the urls given, [numberAdded] by their
    number, and [crawledUrls], [counter] and [finished] are left alone. *)
Theorem enqueueAll_pushes_everything (this : Crawler) (queue urls : list string) :
  urlQueue this = Some queue →
  ∃ self, enqueueAll this urls = inr self ∧
          urlQueue self = Some (queue ++ urls)%list ∧
          numberAdded self = numberAdded this + Z.of_nat (List.length urls) ∧
          crawledUrls self = crawledUrls this ∧
          counter self = counter this ∧
          finished self = finished this.
Proof.
  revert this queue. induction urls as [|url rest IH]; intros this queue Hqueue.
  - exists this. cbn. rewrite app_nil_r, Z.add_0_r. repeat split. assumption.
  - cbn [enqueueAll]. unfold enqueueCrawl, enqueueCrawl_method. rewrite Hqueue.
    destruct (IH (set_pushed this queue url) (queue ++ [url])%list eq_refl)
      as (self & Hall & Hq & Hn & Hc & Hk & Hf).
    exists self. split; [exact Hall|].
    rewrite Hq, Hn, Hc, Hk, Hf. cbn [set_pushed numberAdded crawledUrls counter finished].
    rewrite <- app_assoc. cbn [app List.length].
    repeat split. lia.
Qed.

Lemma enqueueAll_pushes_everything_witness :
  urlQueue (ready ["target"] ["example.com"]) = Some [] ∧
  ∃ self, enqueueAll (ready ["target"] ["example.com"])
            ["https://a.test"; "https://a.test"] = inr self ∧
          urlQueue self = Some ([] ++ ["https://a.test"; "https://a.test"])%list ∧
          numberAdded self
          = numberAdded (ready ["target"] ["example.com"])
            + Z.of_nat (List.length ["https://a.test"; "https://a.test"]) ∧
          crawledUrls self = crawledUrls (ready ["target"] ["example.com"]) ∧
          counter self = counter (ready ["target"] ["example.com"]) ∧
          finished self = finished (ready ["target"] ["example.com"]).
Proof.
  split; [reflexivity|].
  exact (enqueueAll_pushes_everything (ready ["target"] ["example.com"]) []
           ["https://a.test"; "https://a.test"] eq_refl).
Defined.

(** ** Runs of several tasks *)

Section Runs.

Variable newCrawlableLink : string -> CrawlableLink.

(** X3: over any run of tasks, [counter] grows by exactly the number of tasks
    processed, [crawledUrls] becomes the urls it held together with the urls of
    the processed tasks, and the queue and [numberAdded] are what they were. *)
Theorem run_tasks_accounting (this : Crawler) (tasks : list (string * bool * Page)) :
  let run := run_tasks newCrawlableLink this tasks in
  counter (fst run)
  = counter this + Z.of_nat (List.length (processed_urls (snd run))) ∧
  crawledUrls (fst run) = list_to_set (processed_urls (snd run)) ∪ crawledUrls this ∧
  urlQueue (fst run) = urlQueue this ∧
  numberAdded (fst run) = numberAdded this.
Proof.
  cbn zeta. revert this.
  induction tasks as [|[[url callback] page] rest IH]; intros this.
  - cbn. repeat split; [lia|]. symmetry. apply (left_id_L ∅ (∪)).
  - cbn [run_tasks fst snd].
    destruct (IH (crawler (performCrawl newCrawlableLink this url callback page)))
      as (Hcount & Hurls & Hqueue & Hadded).
    destruct (performCrawl_never_enqueues newCrawlableLink this url callback page)
      as [Hq Hn].
    cbn zeta in Hq, Hn.
    rewrite Hcount, Hurls, Hqueue, Hadded, Hq, Hn.
    unfold processed_urls. cbn [List.filter snd].
    destruct (processed (performCrawl newCrawlableLink this url callback page))
      eqn:Hproc.
    + destruct (processed_claims newCrawlableLink this url callback page Hproc)
        as [Hclaimed Hcounter].
      rewrite Hclaimed, Hcounter. cbn [List.map List.length fst list_to_set].
      repeat split; [lia|].
      rewrite (assoc_L (∪)), (comm_L (∪) (list_to_set _) {[ url ]}). reflexivity.
    + destruct (unprocessed_is_noop newCrawlableLink this url callback page Hproc)
        as (Hsame & _ & _).
      rewrite Hsame. repeat split.
Qed.

(** X4: when every task of a run carries a callback, no url is processed
    twice and no url that [crawledUrls] held at the start is processed at all,
    however often and in whatever order the urls occur among the tasks. *)
Theorem run_tasks_with_callbacks_at_most_once (this : Crawler)
    (tasks : list (string * bool * Page)) :
  Forall (fun task => snd (fst task) = true) tasks →
  let run := run_tasks newCrawlableLink this tasks in
  NoDup (processed_urls (snd run)) ∧
  ∀ url : string, url ∈ processed_urls (snd run) → url ∉ crawledUrls this.
Proof.
  cbn zeta. intros Hall. revert this.
  induction Hall as [|[[url callback] page] rest Hcb Hrest IH]; intros this.
  - cbn. split; [apply NoDup_nil; exact I | intros url Hin; inversion Hin].
  - cbn in Hcb. subst callback. cbn [run_tasks fst snd].
    destruct (IH (crawler (performCrawl newCrawlableLink this url true page)))
      as [Hnodup Hfresh].
    unfold processed_urls in *. cbn [List.filter snd].
    destruct (processed (performCrawl newCrawlableLink this url true page))
      eqn:Hproc.
    + destruct (processed_claims newCrawlableLink this url true page Hproc)
        as [Hclaimed _].
      rewrite Hclaimed in Hfresh.
      assert (Hnew : url ∉ crawledUrls this).
      { rewrite performCrawl_processed in Hproc.
        intros Hin. rewrite bool_decide_eq_true_2 in Hproc by assumption.
        discriminate Hproc. }
      cbn [List.map fst]. split.
      * apply NoDup_cons. split; [|assumption].
        intros Hin. apply Hfresh in Hin. apply Hin.
        apply elem_of_union_l, elem_of_singleton. reflexivity.
      * intros u Hu. apply elem_of_cons in Hu as [->|Hu]; [assumption|].
        intros Hin. apply (Hfresh u Hu). apply elem_of_union_r. assumption.
    + destruct (unprocessed_is_noop newCrawlableLink this url true page Hproc)
        as (Hsame & _ & _).
      split; [assumption|]. intros u Hu. specialize (Hfresh u Hu).
      rewrite Hsame in Hfresh. assumption.
Qed.

End Runs.

Lemma run_tasks_with_callbacks_at_most_once_witness :
  let tasks := [("https://example.com/", true, example_page);
                ("https://other.com/", true, timed_out_page);
                ("https://example.com/", true, example_page)] in
  let run := run_tasks SpecLink.classify (ready ["target"] ["example.com"]) tasks in
  Forall (fun task => snd (fst task) = true) tasks ∧
  NoDup (processed_urls (snd run)) ∧
  ∀ url : string, url ∈ processed_urls (snd run) →
                  url ∉ crawledUrls (ready ["target"] ["example.com"]).
Proof.
  cbn zeta.
  assert (Hall : Forall (fun task : string * bool * Page => snd (fst task) = true)
                   [("https://example.com/", true, example_page);
                    ("https://other.com/", true, timed_out_page);
                    ("https://example.com/", true, example_page)]).
  { repeat constructor. }
  split; [exact Hall|].
  exact (run_tasks_with_callbacks_at_most_once SpecLink.classify
           (ready ["target"] ["example.com"]) _ Hall).
Defined.

(** ** One task, looked at from outside *)

Section TaskReports.

Variable newCrawlableLink : string -> CrawlableLink.

(** X5: what a task leaves in the crawler's fields does not depend on the
    page at all: whether the fetch fails, the page matches or the screenshot
    fails, and however the links classify, the fields after the task are the
    same. *)
Theorem task_state_ignores_page (otherLink : string -> CrawlableLink)
    (this : Crawler) (url : string) (callback : bool) (page page' : Page) :
  crawler (performCrawl newCrawlableLink this url callback page)
  = crawler (performCrawl otherLink this url callback page').
Proof. rewrite !crawler_performCrawl. reflexivity. Qed.

(** X6: a result, when a task has one, carries the task's url, and its kind
    is decided as follows. It is already-crawled only if the url was in
    [crawledUrls] and a callback was given; failed only with the error of a
    page that did not load, or with the error of a failed screenshot of a
    matching page when screenshots are on (never with a TypeError); not-found
    only if the page loaded and nothing matched; found only if the page
    loaded, with exactly the matcher's non-empty matches and an empty links
    list, and any screenshot requested succeeded. A task has no result only
    if its promise is rejected before the page is opened: with a TypeError
    when the progress line is due and [init] has not created the queue, or
    with the error of a browser that cannot open the page. *)
Theorem result_classification (this : Crawler) (url : string) (callback : bool)
    (page : Page) :
  let o := performCrawl newCrawlableLink this url callback page in
  match result o with
  | Some (AlreadyCrawled u) => u = url ∧ url ∈ crawledUrls this ∧ callback = true
  | Some (Failed u err) =>
      u = url ∧
      ((∃ detail, load page = LoadFails detail ∧ err = PageError detail) ∨
       (∃ detail content hrefsFromPage,
          load page = Loaded content hrefsFromPage ∧
          page_matches (dictionary this) (minimumWordLength this) content ≠ [] ∧
          takeScreenshots this = true ∧ screenshot page = Some detail ∧
          err = ScreenshotError detail))
  | Some (NotFound u) =>
      u = url ∧
      ∃ content hrefsFromPage,
        load page = Loaded content hrefsFromPage ∧
        page_matches (dictionary this) (minimumWordLength this) content = []
  | Some (Found u ms ls) =>
      u = url ∧
      ∃ content hrefsFromPage,
        load page = Loaded content hrefsFromPage ∧
        ms = page_matches (dictionary this) (minimumWordLength this) content ∧
        ms ≠ [] ∧ ls = [] ∧
        (takeScreenshots this = true → screenshot page = None)
  | None =>
      (∃ detail, rejected o = Some (TypeError detail) ∧
                 debug this = true ∧ urlQueue this = None ∧
                 Js.rem_is_zero (counter this + 1)
                   (itemsToProcessBeforeLogging this) = true) ∨
      (∃ detail, rejected o = Some (BrowserError detail) ∧
                 open_error page = Some detail)
  end.
Proof.
  cbn zeta.
  crawl_cases this url callback page.
  all: try (split; [reflexivity|]).
  all: try (split; [now apply bool_decide_eq_true in Hcrawled | reflexivity]).
  all: try (left; eexists; split; reflexivity).
  all: try (right; eexists; split; reflexivity).
  all: try (left; eexists; apply andb_true_iff in Hprogress as [Hdbg Hzero];
            repeat split; assumption).
  all: try (right; eexists _, _, _; rewrite Hfound; repeat split;
            try reflexivity; try assumption; discriminate).
  all: try (eexists _, _; split; [reflexivity | assumption]).
  all: eexists _, _; rewrite ?validLinks_nil; repeat split;
    try reflexivity; try assumption; try discriminate; try congruence.
Qed.

(** X7: with [debug] off, [output] is called with nothing but found results:
    no progress line, no error text. *)
Theorem quiet_output_only_found (this : Crawler) (url : string) (callback : bool)
    (page : Page) (arg : OutputArg) :
  debug this = false →
  Output arg ∈ trace (performCrawl newCrawlableLink this url callback page) →
  ∃ ms ls, arg = OutResult (Found url ms ls).
Proof.
  intros Hquiet. revert Hquiet.
  crawl_cases this url callback page; intros Hquiet Hin;
    try discriminate Hquiet.
  all: try (rewrite ?Hquiet in Hprogress; cbn in Hprogress; discriminate Hprogress).
  all: repeat (apply elem_of_cons in Hin; destruct Hin as [Hin|Hin];
               [try discriminate Hin|]).
  all: try (apply not_elem_of_nil in Hin; contradiction).
  all: injection Hin as ->; eexists _, _; reflexivity.
Qed.

(** X8: a processed task that opens its page closes it exactly once, on
    every path (load failure, no match, match, failed screenshot); a task
    that is answered already-crawled, or whose promise is rejected before a
    page is opened, closes nothing. When the promise is not rejected and a
    callback is given, calling it with the result is the last thing the task
    does; without a callback closing the page is. *)
Theorem page_closed_once (this : Crawler) (url : string) (callback : bool)
    (page : Page) :
  let o := performCrawl newCrawlableLink this url callback page in
  List.length (List.filter is_ClosePage (trace o))
  = (if processed o && page_opened this url page then 1%nat else 0%nat) ∧
  ∀ r : CrawlResult,
    rejected o = None → result o = Some r →
    List.last (trace o) ClosePage = (if callback then Callback r else ClosePage).
Proof.
  cbn zeta. unfold processed, page_opened, progress_line.
  cbn [debug counter itemsToProcessBeforeLogging urlQueue numberAdded set_claimed].
  crawl_cases this url callback page; split; try reflexivity;
    intros r Hsettled Hres; try discriminate Hsettled;
    injection Hres as <-; reflexivity.
Qed.

(** X9: a screenshot is requested exactly when the task is processed and
    opens its page, the page loaded, at least one word matched and
    screenshots are enabled, and then for the task's own url; never for a
    page without matches. *)
Theorem screenshot_only_when_matched (this : Crawler) (url : string)
    (callback : bool) (page : Page) (u : string) :
  let o := performCrawl newCrawlableLink this url callback page in
  TakeScreenshot u ∈ trace o ↔
  u = url ∧ processed o = true ∧ page_opened this url page = true ∧
  takeScreenshots this = true ∧
  ∃ content hrefsFromPage,
    load page = Loaded content hrefsFromPage ∧
    page_matches (dictionary this) (minimumWordLength this) content ≠ [].
Proof.
  cbn zeta. unfold processed, page_opened, progress_line.
  cbn [debug counter itemsToProcessBeforeLogging urlQueue numberAdded set_claimed].
  crawl_cases this url callback page; split.
  all: try match goal with
    | |- TakeScreenshot _ ∈ _ → _ =>
        intros Hin;
        repeat (apply elem_of_cons in Hin; destruct Hin as [Hin|Hin];
                [try discriminate Hin|]);
        try (apply not_elem_of_nil in Hin; contradiction);
        injection Hin as ->
    end.
  all: try match goal with
    | |- _ ∧ _ =>
        split; [reflexivity|]; split; [reflexivity|]; split; [reflexivity|];
        split; [reflexivity|];
        eexists _, _; split; [reflexivity|]; rewrite Hfound; discriminate
    end.
  all: intros (-> & Hproc & Hopened & Hon & content' & hrefs' & Hl & Hm);
    try discriminate Hproc; try discriminate Hopened; try discriminate Hon;
    try discriminate Hl.
  all: try (injection Hl as <- <-; rewrite Hfound in Hm; contradiction).
  all: repeat constructor.
Qed.

(** X10: the links list of every emitted found result is empty, whatever
    links the page carries and however they classify: the crawlability filter
    keeps no link. *)
Theorem found_links_always_empty (this : Crawler) (url : string) (callback : bool)
    (page : Page) (u : string) (ms ls : list string) :
  emitted (performCrawl newCrawlableLink this url callback page) (Found u ms ls) →
  ls = [].
Proof.
  intros Hemit.
  apply emitted_Found_inv in Hemit as (content & hrefsFromPage & _ & _ & _ & -> & _).
  apply validLinks_nil.
Qed.

End TaskReports.

Lemma quiet_output_only_found_witness :
  let this := ready ["target"] ["example.com"] in
  let o := performCrawl SpecLink.classify this "https://example.com/" true
             example_page in
  debug this = false ∧
  Output (OutResult (Found "https://example.com/" ["target"] [])) ∈ trace o ∧
  ∃ ms ls, OutResult (Found "https://example.com/" ["target"] [])
           = OutResult (Found "https://example.com/" ms ls).
Proof.
  cbn zeta.
  assert (Hin : Output (OutResult (Found "https://example.com/" ["target"] []))
                ∈ trace (performCrawl SpecLink.classify
                           (ready ["target"] ["example.com"])
                           "https://example.com/" true example_page)).
  { apply list_elem_of_In. vm_compute. left. reflexivity. }
  split; [reflexivity|]. split; [exact Hin|].
  exact (quiet_output_only_found SpecLink.classify
           (ready ["target"] ["example.com"]) "https://example.com/" true
           example_page _ eq_refl Hin).
Defined.

Lemma found_links_always_empty_witness :
  let o := performCrawl SpecLink.classify (ready ["target"] ["example.com"])
             "https://example.com/" true example_page in
  emitted o (Found "https://example.com/" ["target"] []) ∧
  @nil string = [].
Proof.
  cbn zeta.
  assert (Hemit : emitted
                    (performCrawl SpecLink.classify (ready ["target"] ["example.com"])
                       "https://example.com/" true example_page)
                    (Found "https://example.com/" ["target"] [])).
  { left. apply list_elem_of_In. vm_compute. left. reflexivity. }
  split; [exact Hemit|].
  exact (found_links_always_empty SpecLink.classify
           (ready ["target"] ["example.com"]) "https://example.com/" true
           example_page _ _ _ Hemit).
Defined.

(** ** The finished flag *)

(** X11: only the drain callback raises [finished]: if the flag is up after
    one operation of the class ([init], [enqueueCrawl], a task, the drain
    callback), it was up before or the operation was the drain callback. *)
Theorem only_drain_finishes (a b : Crawler) :
  Step a b →
  isFinished b = true →
  isFinished a = true ∨ b = fst (drain_callback a).
Proof.
  intros [this | this self url Hpush | newLink this url callback page | this] Hfin.
  - left. exact Hfin.
  - unfold enqueueCrawl, enqueueCrawl_method in Hpush.
    destruct (urlQueue this) as [queue|]; [|discriminate Hpush].
    injection Hpush as <-. left. exact Hfin.
  - destruct (performCrawl_keeps_settings newLink this url callback page)
      as (_ & _ & _ & _ & _ & Hsame).
    cbn zeta in Hsame. unfold isFinished in *. left. congruence.
  - right. reflexivity.
Qed.

Lemma only_drain_finishes_witness :
  Step (ready ["target"] []) (fst (drain_callback (ready ["target"] []))) ∧
  isFinished (fst (drain_callback (ready ["target"] []))) = true ∧
  (isFinished (ready ["target"] []) = true ∨
   fst (drain_callback (ready ["target"] []))
   = fst (drain_callback (ready ["target"] []))).
Proof.
  split; [apply step_drain|]. split; [reflexivity|].
  exact (only_drain_finishes _ _ (step_drain (ready ["target"] [])) eq_refl).
Defined.

(** X12: once the drain callback has run, [isFinished] stays true through
    whatever follows, further [enqueueCrawl] calls, tasks and a second [init]
    included, while later pushes and tasks still take effect. *)
Theorem finished_after_drain_is_final (this later : Crawler) :
  Steps (fst (drain_callback this)) later →
  isFinished later = true.
Proof.
  intros Hsteps. apply Steps_monotone in Hsteps as (_ & _ & Hfin).
  apply Hfin. reflexivity.
Qed.

Lemma finished_after_drain_is_final_witness :
  let drained := fst (drain_callback (ready ["target"] [])) in
  let pushed := set_pushed drained [] "https://a.test" in
  let crawled := crawler (performCrawl SpecLink.classify pushed "https://a.test"
                            true example_page) in
  Steps drained crawled ∧ urlQueue crawled = Some ["https://a.test"] ∧
  counter crawled = 1 ∧ isFinished crawled = true.
Proof.
  cbn zeta.
  assert (Hsteps : Steps (fst (drain_callback (ready ["target"] [])))
                     (crawler (performCrawl SpecLink.classify
                                 (set_pushed (fst (drain_callback (ready ["target"] [])))
                                    [] "https://a.test")
                                 "https://a.test" true example_page))).
  { eapply steps_step.
    - apply (step_enqueue _ (set_pushed (fst (drain_callback (ready ["target"] [])))
                               [] "https://a.test") "https://a.test").
      reflexivity.
    - eapply steps_step; [apply step_task | apply steps_refl]. }
  split; [exact Hsteps|]. split; [reflexivity|]. split; [reflexivity|].
  exact (finished_after_drain_is_final _ _ Hsteps).
Defined.

(** ** Tokens and links *)

Lemma split_not_nil (sep : ascii) (s : string) : Js.split sep s ≠ [].
Proof.
  destruct s as [|ch rest]; cbn; [discriminate|].
  destruct (Ascii.eqb ch sep); [discriminate|].
  destruct (Js.split sep rest); discriminate.
Qed.

Lemma concat_cons_nonempty (sep piece : string) (pieces : list string) :
  pieces ≠ [] →
  String.concat sep (piece :: pieces) = piece ++ sep ++ String.concat sep pieces.
Proof. destruct pieces; [congruence | reflexivity]. Qed.

(** X13: [split] loses nothing and cuts at every separator: joining the
    pieces with the separator gives the string back, and no piece contains
    the separator. In particular consecutive spaces in a page yield empty
    tokens, and tabs and line breaks stay inside their token. *)
Theorem split_join_roundtrip (sep : ascii) (s : string) :
  String.concat (String sep EmptyString) (Js.split sep s) = s ∧
  ∀ piece : string, piece ∈ Js.split sep s → sep ∉ chars piece.
Proof.
  induction s as [|ch rest [IHjoin IHsep]].
  - split; [reflexivity|]. intros piece Hin.
    apply list_elem_of_singleton in Hin. subst piece. apply not_elem_of_nil.
  - cbn [Js.split]. destruct (Ascii.eqb_spec ch sep) as [->|Hne].
    + split.
      * rewrite concat_cons_nonempty by apply split_not_nil.
        cbn. now rewrite IHjoin.
      * intros piece Hin. apply elem_of_cons in Hin as [->|Hin];
          [apply not_elem_of_nil | now apply IHsep].
    + pose proof (split_not_nil sep rest) as Hnil.
      destruct (Js.split sep rest) as [|piece pieces]; [congruence|].
      split.
      * destruct pieces as [|next pieces].
        -- cbn in *. now rewrite IHjoin.
        -- rewrite concat_cons_nonempty in IHjoin |- * by discriminate.
           rewrite <- IHjoin. reflexivity.
      * intros p Hin. apply elem_of_cons in Hin as [->|Hin].
        -- unfold chars. cbn. intros Hc. apply elem_of_cons in Hc as [Hc|Hc];
             [congruence|].
           apply (IHsep piece); [apply elem_of_cons; left; reflexivity | exact Hc].
        -- apply IHsep. apply elem_of_cons. right. exact Hin.
Qed.

Lemma lower_char_space (ch : ascii) :
  Ascii.eqb (Js.lower_char ch) " " = Ascii.eqb ch " ".
Proof.
  destruct ch as [b0 b1 b2 b3 b4 b5 b6 b7].
  destruct b0, b1, b2, b3, b4, b5, b6, b7; reflexivity.
Qed.

Lemma split_toLowerCase (s : string) :
  Js.split " " (Js.toLowerCase s) = List.map Js.toLowerCase (Js.split " " s).
Proof.
  induction s as [|ch rest IH]; [reflexivity|].
  cbn [Js.toLowerCase Js.split]. rewrite lower_char_space, IH.
  destruct (Ascii.eqb ch " "); [reflexivity|].
  destruct (Js.split " " rest); reflexivity.
Qed.

(** X14: matching does not depend on the case of the page: a page and its
    lowercased text yield the same matches, in the same order, for every
    dictionary and minimum length. *)
Theorem matching_ignores_page_case (dict : gset string) (minLength : Z)
    (content : string) :
  page_matches dict minLength (Js.toLowerCase content)
  = page_matches dict minLength content.
Proof.
  unfold page_matches, page_words. rewrite split_toLowerCase, List.map_map.
  f_equal. f_equal. f_equal. apply List.map_ext. intros token.
  apply toLowerCase_idempotent.
Qed.

Lemma JsSet_of_list_acc (l : list string) (acc : JsSet.t) :
  NoDup acc →
  NoDup (fold_left JsSet.add l acc) ∧
  ∀ x : string, x ∈ fold_left JsSet.add l acc ↔ x ∈ acc ∨ x ∈ l.
Proof.
  revert acc. induction l as [|y rest IH]; intros acc Hacc; cbn.
  - split; [assumption|]. intros x. split; [tauto|].
    intros [H|H]; [assumption | inversion H].
  - destruct (IH (JsSet.add acc y) (JsSet_NoDup_add acc y Hacc)) as [Hnd Hin].
    split; [assumption|]. intros x.
    rewrite Hin, JsSet_elem_of_add, elem_of_cons. tauto.
Qed.

(** X15: the links taken from a page are deduplicated before anything else
    is done with them: [hrefs] has no repetition and holds exactly the links
    the page has. *)
Theorem page_hrefs_deduplicated (hrefsFromPage : list string) :
  NoDup (page_hrefs hrefsFromPage) ∧
  ∀ href : string, href ∈ page_hrefs hrefsFromPage ↔ href ∈ hrefsFromPage.
Proof.
  unfold page_hrefs, JsSet.to_array, JsSet.of_list, JsSet.empty.
  destruct (JsSet_of_list_acc hrefsFromPage []) as [Hnd Hin].
  { apply NoDup_nil. exact I. }
  split; [assumption|]. intros href. rewrite Hin. split; [|tauto].
  intros [H|H]; [inversion H | assumption].
Qed.

(** ** Screenshot file names *)

Lemma string_app_cons (ch : ascii) (a b : string) :
  (String ch a ++ b = String ch (a ++ b))%string.
Proof. reflexivity. Qed.

Lemma string_app_assoc (a b c : string) : ((a ++ b) ++ c = a ++ b ++ c)%string.
Proof.
  induction a as [|ch a IH]; [reflexivity|].
  rewrite !string_app_cons. now rewrite IH.
Qed.

Lemma string_length_app (a b : string) :
  String.length (a ++ b) = (String.length a + String.length b)%nat.
Proof.
  induction a as [|ch a IH]; [reflexivity|].
  rewrite string_app_cons. cbn [String.length]. now rewrite IH.
Qed.

Lemma string_app_inj (a a' b b' : string) :
  String.length a = String.length a' →
  (a ++ b = a' ++ b')%string → a = a' ∧ b = b'.
Proof.
  revert a'. induction a as [|ch a IH]; intros [|ch' a'] Hlen Heq;
    try discriminate Hlen.
  - split; [reflexivity | exact Heq].
  - rewrite !string_app_cons in Heq. injection Hlen as Hlen.
    injection Heq as -> Heq.
    destruct (IH a' Hlen Heq) as [-> ->]. split; reflexivity.
Qed.

Lemma chars_app (a b : string) : chars (a ++ b) = (chars a ++ chars b)%list.
Proof.
  unfold chars. induction a as [|ch a IH]; [reflexivity|].
  rewrite string_app_cons. cbn [list_ascii_of_string app]. now rewrite IH.
Qed.

(** A decimal numeral is made of digits and reads back as the number. *)
Lemma toString_digits (num : nat) : forallb is_digit (chars (toString num)) = true.
Proof.
  unfold toString, chars. generalize (Nat.to_uint num). intros d.
  induction d; cbn; try reflexivity; assumption.
Qed.

Lemma parseDecimal_toString (num : nat) : parseDecimal (toString num) = Some num.
Proof.
  unfold parseDecimal, toString.
  rewrite NilEmpty.usu. cbn. now rewrite Unsigned.of_to.
Qed.

Lemma below_checked (P : nat -> bool) (bound : nat) :
  forallb P (seq 0 bound) = true → ∀ n : nat, (n < bound)%nat → P n = true.
Proof.
  intros Hall n Hn. rewrite forallb_forall in Hall. apply Hall.
  apply in_seq. lia.
Qed.

Lemma padTo2Digits_length (num : nat) :
  (num < 100)%nat → String.length (padTo2Digits num) = 2%nat.
Proof.
  intros Hnum.
  apply Nat.eqb_eq.
  apply (below_checked (fun n => Nat.eqb (String.length (padTo2Digits n)) 2) 100);
    [vm_compute; reflexivity | exact Hnum].
Qed.

Lemma padTo2Digits_reads_back (num : nat) :
  (num < 100)%nat → parseDecimal (padTo2Digits num) = Some num.
Proof.
  intros Hnum.
  assert (Hcheck : match parseDecimal (padTo2Digits num) with
                   | Some n => Nat.eqb n num
                   | None => false
                   end = true).
  { apply (below_checked
             (fun k => match parseDecimal (padTo2Digits k) with
                       | Some n => Nat.eqb n k
                       | None => false
                       end) 100);
      [vm_compute; reflexivity | exact Hnum]. }
  destruct (parseDecimal (padTo2Digits num)) as [n|]; [|discriminate Hcheck].
  apply Nat.eqb_eq in Hcheck. now subst.
Qed.

Lemma padTo2Digits_digits (num : nat) :
  forallb is_digit (chars (padTo2Digits num)) = true.
Proof.
  unfold padTo2Digits, padStart.
  rewrite chars_app, forallb_app, toString_digits, andb_true_r.
  generalize (2 - String.length (toString num))%nat. intros k.
  induction k as [|k IH]; [reflexivity|].
  destruct k as [|k]; [reflexivity|].
  change (List.repeat "0"%string (S (S k)))
    with ("0"%string :: List.repeat "0"%string (S k)).
  rewrite concat_cons_nonempty by discriminate.
  rewrite !chars_app, !forallb_app, IH. reflexivity.
Qed.

Lemma formatDate_shape (date : Date.t) :
  formatDate date
  = (toString (Date.getFullYear date) ++ "-"
     ++ padTo2Digits (Date.getMonth date + 1) ++ "-"
     ++ padTo2Digits (Date.getDate date) ++ "_"
     ++ padTo2Digits (Date.getHours date)
     ++ padTo2Digits (Date.getMinutes date)
     ++ padTo2Digits (Date.getSeconds date))%string.
Proof.
  unfold formatDate, join. cbn [String.concat].
  rewrite !string_app_assoc. reflexivity.
Qed.

Lemma four_digit_year (year : nat) :
  1000 <= Z.of_nat year <= 9999 → String.length (toString year) = 4%nat.
Proof.
  intros [Hlow Hhigh].
  assert (Hcheck : (fun y => (y <? 1000)%nat
                             || Nat.eqb (String.length (toString y)) 4) year = true).
  { apply (below_checked
             (fun y => (y <? 1000)%nat || Nat.eqb (String.length (toString y)) 4)
             (Z.to_nat 10000)); [vm_compute; reflexivity | lia]. }
  cbn beta in Hcheck. apply orb_true_iff in Hcheck as [Hsmall|Hfour].
  - apply Nat.ltb_lt in Hsmall. lia.
  - now apply Nat.eqb_eq.
Qed.

(** X16: for a date in the usual ranges with a four-digit year, [formatDate]
    yields exactly 17 characters, each a digit, a hyphen or an underscore:
    the zero-padded YYYY-MM-DD_HHMMSS. *)
Theorem formatDate_fixed_width (date : Date.t) :
  Date.in_range date →
  1000 <= Z.of_nat (Date.getFullYear date) <= 9999 →
  String.length (formatDate date) = 17%nat ∧
  forallb (fun ch => is_digit ch || Ascii.eqb ch "-" || Ascii.eqb ch "_")
    (chars (formatDate date)) = true.
Proof.
  intros (Hmonth & Hday & Hhours & Hminutes & Hseconds) Hyear.
  rewrite formatDate_shape. split.
  - rewrite !string_length_app, four_digit_year by assumption.
    rewrite !padTo2Digits_length by lia. reflexivity.
  - assert (Hweaken : ∀ l, forallb is_digit l = true →
              forallb (fun ch => is_digit ch || Ascii.eqb ch "-" || Ascii.eqb ch "_")
                l = true).
    { intros l Hl. rewrite forallb_forall in *. intros ch Hch.
      now rewrite (Hl ch Hch). }
    rewrite !chars_app, !forallb_app.
    repeat (apply andb_true_iff; split);
      try reflexivity;
      apply Hweaken; (apply toString_digits || apply padTo2Digits_digits).
Qed.

Lemma formatDate_fixed_width_witness :
  Date.in_range (Date.mk 2026 10 1 9 5 59) ∧
  1000 <= Z.of_nat (Date.getFullYear (Date.mk 2026 10 1 9 5 59)) <= 9999 ∧
  String.length (formatDate (Date.mk 2026 10 1 9 5 59)) = 17%nat ∧
  forallb (fun ch => is_digit ch || Ascii.eqb ch "-" || Ascii.eqb ch "_")
    (chars (formatDate (Date.mk 2026 10 1 9 5 59))) = true.
Proof.
  assert (Hrange : Date.in_range (Date.mk 2026 10 1 9 5 59))
    by (unfold Date.in_range; cbn; lia).
  assert (Hyear : 1000 <= Z.of_nat (Date.getFullYear (Date.mk 2026 10 1 9 5 59)) <= 9999)
    by (cbn; lia).
  split; [exact Hrange|]. split; [exact Hyear|].
  exact (formatDate_fixed_width (Date.mk 2026 10 1 9 5 59) Hrange Hyear).
Defined.

Lemma padTo2Digits_inj (m n : nat) :
  (m < 100)%nat → (n < 100)%nat → padTo2Digits m = padTo2Digits n → m = n.
Proof.
  intros Hm Hn Heq.
  pose proof (padTo2Digits_reads_back m Hm) as Hback.
  rewrite Heq, (padTo2Digits_reads_back n Hn) in Hback. congruence.
Qed.

Lemma toString_inj (m n : nat) : toString m = toString n → m = n.
Proof.
  intros Heq. pose proof (parseDecimal_toString m) as Hback.
  rewrite Heq, parseDecimal_toString in Hback. congruence.
Qed.

(** X17: [formatDate] tells dates apart: two dates in the usual ranges that
    differ in the year, month, day, hour, minute or second get different
    texts, so screenshots of one url taken in different seconds get different
    file names. *)
Theorem formatDate_injective (d1 d2 : Date.t) :
  Date.in_range d1 → Date.in_range d2 →
  formatDate d1 = formatDate d2 → d1 = d2.
Proof.
  intros (Hmonth1 & Hday1 & Hhours1 & Hminutes1 & Hseconds1)
         (Hmonth2 & Hday2 & Hhours2 & Hminutes2 & Hseconds2) Heq.
  rewrite !formatDate_shape in Heq.
  assert (Hlen : String.length (toString (Date.getFullYear d1))
                 = String.length (toString (Date.getFullYear d2))).
  { apply (f_equal String.length) in Heq.
    rewrite !string_length_app in Heq.
    rewrite !padTo2Digits_length in Heq by lia. cbn [String.length] in Heq. lia. }
  apply string_app_inj in Heq as [Hyear Heq]; [|exact Hlen].
  apply string_app_inj in Heq as [_ Heq]; [|reflexivity].
  apply string_app_inj in Heq as [Hmonth Heq];
    [|rewrite !padTo2Digits_length by lia; reflexivity].
  apply string_app_inj in Heq as [_ Heq]; [|reflexivity].
  apply string_app_inj in Heq as [Hday Heq];
    [|rewrite !padTo2Digits_length by lia; reflexivity].
  apply string_app_inj in Heq as [_ Heq]; [|reflexivity].
  apply string_app_inj in Heq as [Hhours Heq];
    [|rewrite !padTo2Digits_length by lia; reflexivity].
  apply string_app_inj in Heq as [Hminutes Hseconds];
    [|rewrite !padTo2Digits_length by lia; reflexivity].
  apply toString_inj in Hyear.
  apply padTo2Digits_inj in Hmonth; [|lia|lia].
  apply padTo2Digits_inj in Hday; [|lia|lia].
  apply padTo2Digits_inj in Hhours; [|lia|lia].
  apply padTo2Digits_inj in Hminutes; [|lia|lia].
  apply padTo2Digits_inj in Hseconds; [|lia|lia].
  destruct d1, d2; cbn in *. f_equal; lia.
Qed.

Lemma formatDate_injective_witness :
  Date.in_range (Date.mk 2026 10 1 9 5 59) ∧
  Date.in_range (Date.mk 2026 10 1 9 5 59) ∧
  formatDate (Date.mk 2026 10 1 9 5 59) = formatDate (Date.mk 2026 10 1 9 5 59) ∧
  Date.mk 2026 10 1 9 5 59 = Date.mk 2026 10 1 9 5 59.
Proof.
  assert (Hrange : Date.in_range (Date.mk 2026 10 1 9 5 59))
    by (unfold Date.in_range; cbn; lia).
  split; [exact Hrange|]. split; [exact Hrange|]. split; [reflexivity|].
  exact (formatDate_injective _ _ Hrange Hrange eq_refl).
Defined.

(** X18: for numbers below 10 [padTo2Digits] puts one zero in front of the
    digit; from 10 on (three-digit numbers included) it returns the numeral
    unchanged; it never shortens and always reads back as the number. *)
Theorem padTo2Digits_pads_left (num : nat) :
  padTo2Digits num
  = (if (num <? 10)%nat then "0" ++ toString num else toString num)%string ∧
  parseDecimal (padTo2Digits num) = Some num.
Proof.
  assert (Hlen : if (num <? 10)%nat then String.length (toString num) = 1%nat
                 else (2 <= String.length (toString num))%nat).
  { destruct (num <? 10)%nat eqn:Hsmall.
    - apply Nat.ltb_lt in Hsmall.
      apply Nat.eqb_eq.
      apply (below_checked (fun n => Nat.eqb (String.length (toString n)) 1) 10);
        [vm_compute; reflexivity | exact Hsmall].
    - apply Nat.ltb_ge in Hsmall.
      unfold toString.
      pose proof (Unsigned.of_to num) as Hback.
      destruct (Nat.to_uint num) as [|d|d|d|d|d|d|d|d|d|d] eqn:Hd;
        try (destruct d; [cbn in Hback; lia | cbn; lia ..]).
      cbn in Hback. lia. }
  assert (Hpad : padTo2Digits num
                 = (if (num <? 10)%nat then "0" ++ toString num else toString num)%string).
  { unfold padTo2Digits, padStart. destruct (num <? 10)%nat.
    - rewrite Hlen. reflexivity.
    - replace (2 - String.length (toString num))%nat with 0%nat by lia.
      reflexivity. }
  split; [exact Hpad|].
  rewrite Hpad. destruct (num <? 10)%nat eqn:Hsmall.
  - apply Nat.ltb_lt in Hsmall.
    assert (Hcheck : match parseDecimal ("0" ++ toString num) with
                     | Some n => Nat.eqb n num
                     | None => false
                     end = true).
    { apply (below_checked
               (fun k => match parseDecimal ("0" ++ toString k) with
                         | Some n => Nat.eqb n k
                         | None => false
                         end) 10);
        [vm_compute; reflexivity | exact Hsmall]. }
    destruct (parseDecimal ("0" ++ toString num)) as [n|]; [|discriminate Hcheck].
    apply Nat.eqb_eq in Hcheck. now subst.
  - apply parseDecimal_toString.
Qed.

Lemma chars_replaceAll (from to : ascii) (s : string) :
  chars (replaceAll from to s)
  = List.map (fun ch => if Ascii.eqb ch from then to else ch) (chars s).
Proof.
  unfold chars. induction s as [|ch rest IH]; [reflexivity|].
  cbn [replaceAll list_ascii_of_string List.map]. now rewrite IH.
Qed.

Lemma chars_screenshot_name (href : string) :
  chars (screenshot_name href)
  = List.map (fun ch => if Ascii.eqb ch ":" || Ascii.eqb ch "/" || Ascii.eqb ch "."
                        then "_"%char else ch)
      (chars href).
Proof.
  unfold screenshot_name. rewrite !chars_replaceAll, !List.map_map.
  apply List.map_ext. intros ch.
  destruct (Ascii.eqb_spec ch ":") as [->|_]; [reflexivity|].
  destruct (Ascii.eqb_spec ch "/") as [->|_]; [reflexivity|].
  destruct (Ascii.eqb ch "."); reflexivity.
Qed.

Lemma screenshot_name_avoids (href : string) (bad : ascii) :
  Ascii.eqb bad ":" || Ascii.eqb bad "/" || Ascii.eqb bad "." = true →
  bad ∉ chars (screenshot_name href).
Proof.
  intros Hbad Hin. rewrite chars_screenshot_name in Hin.
  apply list_elem_of_In, in_map_iff in Hin as (ch & Hch & _).
  destruct (Ascii.eqb ch ":" || Ascii.eqb ch "/" || Ascii.eqb ch ".") eqn:Hcase.
  - subst bad. discriminate Hbad.
  - subst bad. congruence.
Qed.

(** X19: the three [replaceAll] passes amount to one pass that turns every
    colon, slash and dot of the url into an underscore and keeps every other
    character in its place: the name has the length of the url and contains
    no colon, slash or dot. *)
Theorem screenshot_name_sanitised (href : string) :
  chars (screenshot_name href)
  = List.map (fun ch => if Ascii.eqb ch ":" || Ascii.eqb ch "/" || Ascii.eqb ch "."
                        then "_"%char else ch)
      (chars href) ∧
  String.length (screenshot_name href) = String.length href ∧
  (":"%char ∉ chars (screenshot_name href)) ∧
  ("/"%char ∉ chars (screenshot_name href)) ∧
  ("."%char ∉ chars (screenshot_name href)).
Proof.
  split; [apply chars_screenshot_name|]. split.
  - unfold screenshot_name.
    assert (Hlen : ∀ from to s, String.length (replaceAll from to s) = String.length s).
    { intros from to s. induction s as [|ch rest IH]; cbn; congruence. }
    now rewrite !Hlen.
  - repeat split; apply screenshot_name_avoids; reflexivity.
Qed.

(** X20: whatever the url and the time, the screenshot is written directly
    into [screenshotPath]: the path is [screenshotPath], a slash, a file name
    and ".png", and the file name contains no slash, no colon and no dot, so
    no url can address another directory or change the extension. *)
Theorem screenshot_file_stays_in_directory (screenshotPath href : string)
    (now : Date.t) :
  ∃ name : string,
    screenshot_file screenshotPath href now
    = (screenshotPath ++ "/" ++ name ++ ".png")%string ∧
    name = (screenshot_name href ++ "_" ++ formatDate now)%string ∧
    ("/"%char ∉ chars name) ∧ (":"%char ∉ chars name) ∧ ("."%char ∉ chars name).
Proof.
  exists (screenshot_name href ++ "_" ++ formatDate now)%string.
  split; [unfold screenshot_file; now rewrite !string_app_assoc|].
  split; [reflexivity|].
  pose proof (screenshot_name_avoids href ":" eq_refl) as Hcolon.
  pose proof (screenshot_name_avoids href "/" eq_refl) as Hslash.
  pose proof (screenshot_name_avoids href "." eq_refl) as Hdot.
  assert (Hdate : ∀ bad : ascii,
             is_digit bad || Ascii.eqb bad "-" || Ascii.eqb bad "_" = false →
             bad ∉ chars ("_" ++ formatDate now)).
  { intros bad Hbad Hin. rewrite formatDate_shape in Hin.
    assert (Hall : forallb (fun ch => is_digit ch || Ascii.eqb ch "-" || Ascii.eqb ch "_")
                     (chars ("_" ++ toString (Date.getFullYear now) ++ "-"
                               ++ padTo2Digits (Date.getMonth now + 1) ++ "-"
                               ++ padTo2Digits (Date.getDate now) ++ "_"
                               ++ padTo2Digits (Date.getHours now)
                               ++ padTo2Digits (Date.getMinutes now)
                               ++ padTo2Digits (Date.getSeconds now))) = true).
    { assert (Hweaken : ∀ l, forallb is_digit l = true →
                forallb (fun ch => is_digit ch || Ascii.eqb ch "-" || Ascii.eqb ch "_")
                  l = true).
      { intros l Hl. rewrite forallb_forall in *. intros ch Hch.
        now rewrite (Hl ch Hch). }
      rewrite !chars_app, !forallb_app.
      repeat (apply andb_true_iff; split);
        try reflexivity;
        apply Hweaken; (apply toString_digits || apply padTo2Digits_digits). }
    rewrite forallb_forall in Hall.
    apply list_elem_of_In, Hall in Hin. congruence. }
  repeat split; intros Hin; rewrite chars_app in Hin;
    apply elem_of_app in Hin as [Hin|Hin];
    try (now apply Hcolon in Hin); try (now apply Hslash in Hin);
    try (now apply Hdot in Hin);
    match type of Hin with ?bad ∈ _ => exact (Hdate bad eq_refl Hin) end.
Qed.

(** ** Seeding, progress lines and the options of the matcher *)

(** X21: a url handed to the constructor as already crawled is never fetched
    by a task that carries a callback: on the initialised crawler such a task
    only calls its callback with the already-crawled result and leaves the
    counter at 0. *)
Theorem seeded_url_is_skipped (newCrawlableLink : string -> CrawlableLink)
    (dict : list string) (dbg shots : bool) (simultaneous timeout : Z)
    (domains crawled : list string) (minLength logEvery : Z) (path url : string)
    (page : Page) :
  url ∈ crawled →
  let this := fst (init (new_Crawler dict dbg shots simultaneous timeout domains
                           crawled minLength logEvery path)) in
  let o := performCrawl newCrawlableLink this url true page in
  result o = Some (AlreadyCrawled url) ∧
  trace o = [Callback (AlreadyCrawled url)] ∧
  crawler o = this ∧ counter (crawler o) = 0.
Proof.
  intros Hin. cbn zeta.
  assert (Hnoop : processed
                    (performCrawl newCrawlableLink
                       (fst (init (new_Crawler dict dbg shots simultaneous timeout
                                     domains crawled minLength logEvery path)))
                       url true page) = false).
  { rewrite performCrawl_processed. cbn [init fst set_urlQueue crawledUrls new_Crawler].
    rewrite bool_decide_eq_true_2; [reflexivity|].
    apply elem_of_list_to_set. exact Hin. }
  destruct (unprocessed_is_noop newCrawlableLink _ url true page Hnoop)
    as (Hsame & Hres & Htrace).
  rewrite Hsame. repeat split; assumption.
Qed.

Lemma seeded_url_is_skipped_witness :
  let this := fst (init (new_Crawler ["target"] false false 20 10000 []
                           ["https://example.com/"] 3 100 "./screenshots")) in
  let o := performCrawl SpecLink.classify this "https://example.com/" true
             example_page in
  "https://example.com/" ∈ ["https://example.com/"] ∧
  result o = Some (AlreadyCrawled "https://example.com/") ∧
  trace o = [Callback (AlreadyCrawled "https://example.com/")] ∧
  crawler o = this ∧ counter (crawler o) = 0.
Proof.
  cbn zeta.
  assert (Hin : "https://example.com/" ∈ ["https://example.com/"])
    by (apply list_elem_of_singleton; reflexivity).
  split; [exact Hin|].
  exact (seeded_url_is_skipped SpecLink.classify ["target"] false false 20 10000 []
           ["https://example.com/"] 3 100 "./screenshots" "https://example.com/"
           example_page Hin).
Defined.

(** X22: a task writes a progress line exactly when it is processed, [debug]
    is on, [itemsToProcessBeforeLogging] is not 0 and divides the counter the
    task has just reached, and [init] has created the queue; the line then
    reports that counter and [numberAdded]. With
    [itemsToProcessBeforeLogging] at 0 there is never a progress line. When
    the line is due on a crawler without a queue, the task stops there: its
    promise is rejected with a TypeError, nothing is written, no page is
    opened and no callback is called. *)
Theorem progress_line_every_n (newCrawlableLink : string -> CrawlableLink)
    (this : Crawler) (url : string) (callback : bool) (page : Page) (p a : Z) :
  let o := performCrawl newCrawlableLink this url callback page in
  (Output (OutProgress p a) ∈ trace o ↔
   processed o = true ∧ debug this = true ∧
   itemsToProcessBeforeLogging this ≠ 0 ∧
   (itemsToProcessBeforeLogging this | counter this + 1) ∧
   is_Some (urlQueue this) ∧
   p = counter this + 1 ∧ a = numberAdded this) ∧
  (processed o = true → debug this = true →
   itemsToProcessBeforeLogging this ≠ 0 →
   (itemsToProcessBeforeLogging this | counter this + 1) →
   urlQueue this = None →
   trace o = [] ∧ result o = None ∧ ∃ detail, rejected o = Some (TypeError detail)).
Proof.
  cbn zeta.
  assert (Hrem : Js.rem_is_zero (counter this + 1) (itemsToProcessBeforeLogging this)
                 = true ↔
                 itemsToProcessBeforeLogging this ≠ 0 ∧
                 (itemsToProcessBeforeLogging this | counter this + 1)).
  { unfold Js.rem_is_zero. rewrite andb_true_iff, negb_true_iff, !Z.eqb_neq, Z.eqb_eq.
    split.
    - intros [Hnz Hz]. split; [exact Hnz|]. now apply Z.rem_divide.
    - intros [Hnz Hdiv]. split; [exact Hnz|]. now apply Z.rem_divide. }
  unfold processed.
  crawl_cases this url callback page; (split; [split|]).
  all: try match goal with
    | |- Output _ ∈ _ → _ =>
        intros Hin;
        repeat (apply elem_of_cons in Hin; destruct Hin as [Hin|Hin];
                [try discriminate Hin|]);
        try (apply not_elem_of_nil in Hin; contradiction);
        injection Hin as -> ->
    end.
  all: try match goal with
    | |- _ ∧ _ =>
        rewrite ?Hdebug in Hprogress;
        apply andb_true_iff in Hprogress as [Hdbg Hzero];
        apply Hrem in Hzero as [Hnz Hdiv];
        repeat split; try assumption; eexists; reflexivity
    end.
  all: try match goal with
    | |- _ ∧ _ → _ =>
        intros (Hproc & Hdbg & Hnz & Hdiv & Hsome & -> & ->);
        try discriminate Hproc; try discriminate Hdbg;
        try (destruct Hsome as [? Hsome]; discriminate Hsome);
        try solve [repeat constructor];
        rewrite ?Hdebug, ?Hdbg in Hprogress;
        assert (Hzero : Js.rem_is_zero (counter this + 1)
                          (itemsToProcessBeforeLogging this) = true)
          by (apply Hrem; split; assumption);
        rewrite Hzero in Hprogress; discriminate Hprogress
    end.
  all: intros Hproc Hdbg Hnz Hdiv Hnone;
    try discriminate Hproc; try discriminate Hdbg; try discriminate Hnone.
  all: try (repeat split; try reflexivity; eexists; reflexivity).
  all: rewrite ?Hdebug, ?Hdbg in Hprogress;
    assert (Hzero : Js.rem_is_zero (counter this + 1)
                      (itemsToProcessBeforeLogging this) = true)
      by (apply Hrem; split; assumption);
    rewrite Hzero in Hprogress; discriminate Hprogress.
Qed.

(** X23: the matches only shrink when the minimum word length is raised or
    words are taken out of the dictionary: every word matched with a larger
    minimum and a smaller dictionary is matched with the smaller minimum and
    the larger dictionary. *)
Theorem matches_monotone (dict dict' : gset string) (minLength minLength' : Z)
    (content w : string) :
  dict ⊆ dict' → minLength' <= minLength →
  w ∈ page_matches dict minLength content →
  w ∈ page_matches dict' minLength' content.
Proof.
  intros Hdict Hmin Hw.
  apply elem_of_page_matches in Hw as (Htoken & Hlen & Hin).
  apply elem_of_page_matches. repeat split; [exact Htoken | lia | now apply Hdict].
Qed.

Lemma matches_monotone_witness :
  ({[ "target" ]} : gset string) ⊆ {[ "target"; "page" ]} ∧ 2 <= 3 ∧
  "target" ∈ page_matches {[ "target" ]} 3 "a Target page" ∧
  "target" ∈ page_matches {[ "target"; "page" ]} 2 "a Target page".
Proof.
  assert (Hsub : ({[ "target" ]} : gset string) ⊆ {[ "target"; "page" ]}).
  { intros x Hx. apply elem_of_singleton in Hx. subst x.
    apply elem_of_union_l, elem_of_singleton. reflexivity. }
  assert (Hmin : 2 <= 3) by lia.
  assert (Hin : "target" ∈ page_matches {[ "target" ]} 3 "a Target page").
  { apply list_elem_of_In. vm_compute. left. reflexivity. }
  split; [exact Hsub|]. split; [exact Hmin|]. split; [exact Hin|].
  exact (matches_monotone {[ "target" ]} {[ "target"; "page" ]} 3 2
           "a Target page" "target" Hsub Hmin Hin).
Defined.

(** ** The drain callback and the queue *)

Section Queue.

Variable newCrawlableLink : string -> CrawlableLink.






End Queue.


